(** * react-bi-infinite-scroll: the InfiniteScroll component of src/index.tsx

    The component registers three effects: a visibility observer that asks
    the caller for more data (observerCallback), a size observer that moves
    the scroll offset after the content changed size, and a search
    highlighter that rewrites the markup of the matched messages and undoes
    it in its cleanup.

    The callbacks are embedded as functions over an explicit state of the
    page.  What the browser does with the strings the component hands to it
    (the selector given to querySelector, the source of the regular
    expression, the markup assigned to innerHTML) is written out below for
    the fragment of each language the component can produce; an input
    outside that fragment is reported as NotModelled, never guessed. *)

From Stdlib Require Import ZArith List Bool Ascii String Lia.
From Stdlib Require QArith.
Import ListNotations.

Local Open Scope list_scope.
Local Open Scope bool_scope.

Infix "+++" := String.append (right associativity, at level 60).

(** ** Strings of the host language *)

Module Js.

(** The double quote, by its code: it closes attribute values, selector
    strings and the class attribute of the highlight marker. *)
Definition dquote : ascii := "034"%char.

(** Characters are bytes.  Codes 0 to 127 are ASCII, and the case mapping
    below is the one of ASCII: toLowerCase and the i flag of a regular
    expression also map letters outside ASCII, which is not written out
    here.  A theorem whose result depends on the case of letters therefore
    asks for ASCII text and query ([isAscii]). *)
Definition isAsciiChar (c : ascii) : bool := (nat_of_ascii c <? 128)%nat.

Definition isUpper (c : ascii) : bool :=
  (65 <=? nat_of_ascii c)%nat && (nat_of_ascii c <=? 90)%nat.

Definition isLower (c : ascii) : bool :=
  (97 <=? nat_of_ascii c)%nat && (nat_of_ascii c <=? 122)%nat.

Definition lowerChar (c : ascii) : ascii :=
  if isUpper c then ascii_of_nat (nat_of_ascii c + 32) else c.

Definition upperChar (c : ascii) : ascii :=
  if isLower c then ascii_of_nat (nat_of_ascii c - 32) else c.

(** [s.toLowerCase()] *)
Fixpoint toLowerCase (s : string) : string :=
  match s with
  | EmptyString => EmptyString
  | String c r => String (lowerChar c) (toLowerCase r)
  end.

(** [s.startsWith(p)] *)
Fixpoint startsWith (s p : string) {struct p} : bool :=
  match p, s with
  | EmptyString, _ => true
  | String _ _, EmptyString => false
  | String a p', String b s' => Ascii.eqb a b && startsWith s' p'
  end.

(** [s.includes(sub)] *)
Fixpoint includes (s sub : string) : bool :=
  match s with
  | EmptyString => startsWith EmptyString sub
  | String _ r => startsWith s sub || includes r sub
  end.

(** [parts.join("")] *)
Fixpoint join (parts : list string) : string :=
  match parts with
  | [] => EmptyString
  | p :: ps => p +++ join ps
  end.

(** The truthiness of a string: only the empty string is falsy. *)
Definition truthy (s : string) : bool :=
  match s with EmptyString => false | String _ _ => true end.

(** Template literals turn [null] into the four letters null. *)
Definition stringOfNullable (v : option string) : string :=
  match v with Some s => s | None => "null"%string end.

Fixpoint anyChar (f : ascii -> bool) (s : string) : bool :=
  match s with
  | EmptyString => false
  | String c r => f c || anyChar f r
  end.

(** A string of ASCII characters only. *)
Definition isAscii (s : string) : bool :=
  negb (anyChar (fun c => negb (isAsciiChar c)) s).

(** *** Regular expressions

    [new RegExp(source, "gi")] for sources made of ordinary characters, the
    dot and parentheses.  Of these the component can only use one shape with
    a known meaning here: a single capturing group around ordinary
    characters and dots.  Unbalanced parentheses are a syntax error; every
    other syntax character, and any further group, is outside the model. *)

Inductive atom : Type :=
| Lit (c : ascii)
| Dot.

Inductive compiled : Type :=
| Compiled (body : list atom)
| BadPattern
| PatternNotModelled.

Definition isOtherSyntax (c : ascii) : bool :=
  anyChar (Ascii.eqb c) "\^$*+?[]{}|"%string.

Definition isSyntaxChar (c : ascii) : bool :=
  isOtherSyntax c || anyChar (Ascii.eqb c) ".()"%string.

Fixpoint balanced (depth : nat) (s : string) : bool :=
  match s with
  | EmptyString => Nat.eqb depth 0
  | String c r =>
      if Ascii.eqb c "("%char then balanced (S depth) r
      else if Ascii.eqb c ")"%char then
        match depth with
        | O => false
        | S d => balanced d r
        end
      else balanced depth r
  end.

(** The atoms of a group body, read up to the parenthesis that must end the
    source. *)
Fixpoint groupBody (s : string) : option (list atom) :=
  match s with
  | EmptyString => None
  | String c r =>
      if Ascii.eqb c ")"%char then
        match r with EmptyString => Some [] | String _ _ => None end
      else if Ascii.eqb c "("%char then None
      else option_map (cons (if Ascii.eqb c "."%char then Dot else Lit c))
                      (groupBody r)
  end.

Definition newRegExp (source : string) : compiled :=
  if anyChar isOtherSyntax source then PatternNotModelled
  else if negb (balanced 0 source) then BadPattern
  else match source with
       | String c r =>
           if Ascii.eqb c "("%char then
             match groupBody r with
             | Some b => Compiled b
             | None => PatternNotModelled
             end
           else PatternNotModelled
       | EmptyString => PatternNotModelled
       end.

Definition isLineTerminator (c : ascii) : bool :=
  Ascii.eqb c "010"%char || Ascii.eqb c "013"%char.

(** Under the i flag two characters match when their upper-case forms agree
    (written out for ASCII, see above); the dot takes any character but a
    line terminator. *)
Definition atomMatches (a : atom) (c : ascii) : bool :=
  match a with
  | Lit x => Ascii.eqb (upperChar x) (upperChar c)
  | Dot => negb (isLineTerminator c)
  end.

(** The text a match of the body takes when it starts at the head of [s]. *)
Fixpoint matchAt (body : list atom) (s : string) : option string :=
  match body with
  | [] => Some EmptyString
  | a :: body' =>
      match s with
      | EmptyString => None
      | String c r =>
          if atomMatches a c then option_map (String c) (matchAt body' r)
          else None
      end
  end.

(** [text.split(re)] for a compiled group: the pieces between the matches,
    with the captured text of each match between them.  [seg] is the piece
    being collected, [skip] the characters of the last match still to be
    passed over. *)
Fixpoint splitFrom (body : list atom) (skip : nat) (seg rest : string)
  : list string :=
  match rest with
  | EmptyString => [seg]
  | String c rest' =>
      match skip with
      | S k => splitFrom body k seg rest'
      | O =>
          match matchAt body rest with
          | Some m =>
              match String.length m with
              | O =>
                  if truthy seg
                  then seg :: EmptyString
                           :: splitFrom body 0 (String c EmptyString) rest'
                  else splitFrom body 0 (String c EmptyString) rest'
              | S k => seg :: m :: splitFrom body k EmptyString rest'
              end
          | None => splitFrom body 0 (seg +++ String c EmptyString) rest'
          end
      end
  end.

Definition split (body : list atom) (text : string) : list string :=
  match text with
  | EmptyString =>
      match matchAt body EmptyString with
      | Some _ => []
      | None => [EmptyString]
      end
  | String _ _ => splitFrom body 0 EmptyString text
  end.

End Js.

(** ** Markup: the nodes of an element and the parsing of innerHTML *)

Module Html.

#[local] Set Warnings "-register-all".

Inductive node : Type :=
| Text (data : string)
| Element (tag : string) (attrs : list (string * string))
          (children : list node).

(** [node.textContent]: the text of the node and of everything below it. *)
Fixpoint nodeText (n : node) : string :=
  match n with
  | Text d => d
  | Element _ _ kids =>
      (fix below (l : list node) : string :=
         match l with
         | [] => EmptyString
         | k :: l' => nodeText k +++ below l'
         end) kids
  end.

(** [element.textContent] for an element with these children. *)
Definition textContent (kids : list node) : string :=
  Js.join (map nodeText kids).

(** The highlight marker the component writes: [<span class=cls>...]. *)
Definition span (cls : string) (kids : list node) : node :=
  Element "span" [("class"%string, cls)] kids.

(** *** Assigning innerHTML

    The fragment parser, for an ordinary flow container as context element
    and for the markup the component can meet: text, the references amp, lt,
    gt and quot, a lone ampersand or less-than sign that starts nothing, and
    span elements that carry exactly one double-quoted class attribute.  The
    parser reads one character at a time; [None] means the input left the
    modelled fragment (another tag, another reference, a NUL or a carriage
    return, a closing tag with nothing to close). *)

Inductive pending : Type :=
| ClassQuote                (* the start tag up to the opening quote *)
| StartTagEnd (cls : string)  (* the > that ends the start tag *)
| EndTag                    (* the whole of the closing tag *)
| Reference (c : ascii).    (* a character reference that stands for [c] *)

Inductive mode : Type :=
| Data
| TagOpen                                (* after a less-than sign *)
| CharRef                                (* after an ampersand *)
| Spelling (rest : string) (k : pending) (* fixed characters still expected *)
| ClassValue (v : string).               (* inside the class attribute *)

(** [run] is the text being collected, [row] the finished siblings of the
    current level (latest first), [enclosing] the open span elements, the
    innermost first, each with its class and its earlier siblings. *)
Record builder : Type := mkBuilder {
  state : mode;
  run : string;
  row : list node;
  enclosing : list (string * list node)
}.

Definition start : builder := mkBuilder Data EmptyString [] [].

Definition withState (m : mode) (b : builder) : builder :=
  mkBuilder m (run b) (row b) (enclosing b).

Definition emit (c : ascii) (b : builder) : builder :=
  mkBuilder Data (run b +++ String c EmptyString) (row b) (enclosing b).

(** The siblings of the current level with the collected text added. *)
Definition flush (b : builder) : list node :=
  if Js.truthy (run b) then Text (run b) :: row b else row b.

Definition complete (k : pending) (b : builder) : option builder :=
  match k with
  | ClassQuote => Some (withState (ClassValue EmptyString) b)
  | StartTagEnd cls =>
      Some (mkBuilder Data EmptyString [] ((cls, flush b) :: enclosing b))
  | EndTag =>
      match enclosing b with
      | (cls, earlier) :: outer =>
          Some (mkBuilder Data EmptyString
                          (span cls (rev (flush b)) :: earlier) outer)
      | [] => None
      end
  | Reference c => Some (emit c b)
  end.

Definition expect (spelling : string) (k : pending) (b : builder)
  : option builder :=
  match spelling with
  | EmptyString => complete k b
  | String _ _ => Some (withState (Spelling spelling k) b)
  end.

Definition isLetter (c : ascii) : bool := Js.isUpper c || Js.isLower c.

Definition isDigit (c : ascii) : bool :=
  (48 <=? nat_of_ascii c)%nat && (nat_of_ascii c <=? 57)%nat.

Definition isNulOrCr (c : ascii) : bool :=
  Ascii.eqb c "000"%char || Ascii.eqb c "013"%char.

Definition data (c : ascii) (b : builder) : option builder :=
  if Ascii.eqb c "<"%char then Some (withState TagOpen b)
  else if Ascii.eqb c "&"%char then Some (withState CharRef b)
  else if isNulOrCr c then None
  else Some (emit c b).

Definition step (b : builder) (c : ascii) : option builder :=
  match state b with
  | Data => data c b
  | TagOpen =>
      if Ascii.eqb c "s"%char
      then expect ("pan class=" +++ String Js.dquote EmptyString) ClassQuote b
      else if Ascii.eqb c "/"%char then expect "span>" EndTag b
      else if isLetter c || Ascii.eqb c "!"%char || Ascii.eqb c "?"%char
      then None
      else data c (emit "<"%char b)
  | CharRef =>
      if Ascii.eqb c "a"%char then expect "mp;" (Reference "&"%char) b
      else if Ascii.eqb c "l"%char then expect "t;" (Reference "<"%char) b
      else if Ascii.eqb c "g"%char then expect "t;" (Reference ">"%char) b
      else if Ascii.eqb c "q"%char then expect "uot;" (Reference Js.dquote) b
      else if isLetter c || isDigit c || Ascii.eqb c "#"%char then None
      else data c (emit "&"%char b)
  | Spelling EmptyString _ => None
  | Spelling (String x rest) k =>
      if Ascii.eqb c x then expect rest k b else None
  | ClassValue v =>
      if Ascii.eqb c Js.dquote then expect ">" (StartTagEnd v) b
      else if Ascii.eqb c "&"%char || isNulOrCr c then None
      else Some (withState (ClassValue (v +++ String c EmptyString)) b)
  end.

Fixpoint feed (b : builder) (s : string) : option builder :=
  match s with
  | EmptyString => Some b
  | String c r =>
      match step b c with
      | Some b' => feed b' r
      | None => None
      end
  end.

(** At the end of the input every span still open is closed. *)
Fixpoint closeAll (inner : list node) (open : list (string * list node))
  : list node :=
  match open with
  | [] => rev inner
  | (cls, earlier) :: outer =>
      closeAll (span cls (rev inner) :: earlier) outer
  end.

Definition finish (b : builder) : option (list node) :=
  match state b with
  | Data => Some (closeAll (flush b) (enclosing b))
  | TagOpen => Some (closeAll (flush (emit "<"%char b)) (enclosing b))
  | CharRef => Some (closeAll (flush (emit "&"%char b)) (enclosing b))
  | Spelling _ _ => None
  | ClassValue _ => None
  end.

Definition parseFragment (markup : string) : option (list node) :=
  match feed start markup with
  | Some b => finish b
  | None => None
  end.

End Html.

(** ** Selectors: what querySelector makes of the string it is given *)

Module Css.

(** The component only builds selectors of the shape
    [[data-message-id=VALUE]] with VALUE between double quotes.  A value
    without quote, backslash, line break or NUL stands for itself.  A quote
    inside the value ends the string early; when another string follows it
    at once the selector is malformed.  Everything else is left out. *)
Inductive parsed : Type :=
| AttributeEquals (value : string)
| Malformed
| SelectorNotModelled.

Definition attributePrefix : string :=
  "[data-message-id=" +++ String Js.dquote EmptyString.

Fixpoint dropPrefix (p s : string) : option string :=
  match p, s with
  | EmptyString, _ => Some s
  | String _ _, EmptyString => None
  | String a p', String b s' =>
      if Ascii.eqb a b then dropPrefix p' s' else None
  end.

Definition isEscapeOrBreak (c : ascii) : bool :=
  Ascii.eqb c "\"%char || Ascii.eqb c "010"%char || Ascii.eqb c "012"%char
  || Ascii.eqb c "013"%char || Ascii.eqb c "000"%char.

Fixpoint quoted (value rest : string) : parsed :=
  match rest with
  | EmptyString => SelectorNotModelled
  | String c r =>
      if Ascii.eqb c Js.dquote then
        match r with
        | String d r' =>
            if Ascii.eqb d "]"%char then
              match r' with
              | EmptyString => AttributeEquals value
              | String _ _ => SelectorNotModelled
              end
            else if Ascii.eqb d Js.dquote then Malformed
            else SelectorNotModelled
        | EmptyString => SelectorNotModelled
        end
      else if isEscapeOrBreak c then SelectorNotModelled
      else quoted (value +++ String c EmptyString) r
  end.

Definition parse (selector : string) : parsed :=
  match dropPrefix attributePrefix selector with
  | Some rest => quoted EmptyString rest
  | None => SelectorNotModelled
  end.

End Css.

(** ** The page: the scroll container, its messages, and what was called *)

Module Dom.

(** A rendered message: an element that carries a data-message-id attribute,
    with its child nodes.  Elements without the attribute never match the
    component's selectors and are left out; messages are listed in document
    order and are not nested in one another. *)
Record Item : Type := mkItem {
  messageId : string;
  content : list Html.node
}.

(** The scroll container.  Extents and offsets are whole pixels.
    [scrollTop] holds the offset the container is at; an assignment to it
    goes through [setScrollTop] below, which keeps the value inside the
    range the container can hold. *)
Record Container : Type := mkContainer {
  scrollHeight : Z;
  scrollTop : Z;
  items : list Item
}.

Inductive ScrollBehavior : Type := BehaviorAuto | BehaviorSmooth.
Inductive ScrollBlock : Type :=
  BlockStart | BlockCenter | BlockEnd | BlockNearest.

(** Calls that leave the component: into the caller (the two load callbacks
    and the loading-flag setter) and into the page (scrollIntoView on the
    message at an index). *)
Inductive Call : Type :=
| LoadMoreTop
| LoadMoreBottom
| SetIsLoading (value : bool)
| ScrollIntoView (target : nat) (behavior : ScrollBehavior)
                 (block : ScrollBlock).

(** The only closure the component hands to setTimeout. *)
Inductive Task : Type :=
| ReleaseLoading.           (* () => { setIsLoading(false) } *)

Record Timer : Type := mkTimer {
  task : Task;
  delay : Z
}.

(** [element] is the container element; [mounted] tells whether
    scrollRef.current is that element or null; [prevScrollHeightRef] is the
    ref of the same name; [timers] are the registered timeouts and [calls]
    the calls made so far, oldest first. *)
Record World : Type := mkWorld {
  element : Container;
  mounted : bool;
  prevScrollHeightRef : Z;
  timers : list Timer;
  calls : list Call
}.

Inductive Exn : Type := SyntaxError | RangeError.

(** A computation ends normally, throws (the state reached is kept), or
    leaves the modelled fragment of the platform. *)
Inductive Res (A : Type) : Type :=
| Ok (a : A) (w : World)
| Thrown (e : Exn) (w : World)
| NotModelled.

Arguments Ok {A} a w.
Arguments Thrown {A} e w.
Arguments NotModelled {A}.

Definition M (A : Type) : Type := World -> Res A.

Definition ret {A : Type} (a : A) : M A := fun w => Ok a w.

Definition bind {A B : Type} (m : M A) (k : A -> M B) : M B :=
  fun w =>
    match m w with
    | Ok a w' => k a w'
    | Thrown e w' => Thrown e w'
    | NotModelled => NotModelled
    end.

Definition throw {A : Type} (e : Exn) : M A := fun w => Thrown e w.

Definition notModelled {A : Type} : M A := fun _ => NotModelled.

Definition gets {A : Type} (f : World -> A) : M A := fun w => Ok (f w) w.

Definition modify (f : World -> World) : M unit := fun w => Ok tt (f w).

(** [list.forEach(f)] *)
Fixpoint forEach {A : Type} (l : list A) (f : A -> M unit) : M unit :=
  match l with
  | [] => ret tt
  | x :: l' => bind (f x) (fun _ => forEach l' f)
  end.

Definition withElement (c : Container) (w : World) : World :=
  mkWorld c (mounted w) (prevScrollHeightRef w) (timers w) (calls w).

Definition withScrollTop (v : Z) (c : Container) : Container :=
  mkContainer (scrollHeight c) v (items c).

Fixpoint replaceContent (i : nat) (kids : list Html.node) (l : list Item)
  : list Item :=
  match l, i with
  | [], _ => []
  | it :: l', O => mkItem (messageId it) kids :: l'
  | it :: l', S j => it :: replaceContent j kids l'
  end.

Definition withContent (i : nat) (kids : list Html.node) (c : Container)
  : Container :=
  mkContainer (scrollHeight c) (scrollTop c) (replaceContent i kids (items c)).

(** The index of the first message whose attribute is exactly [value]. *)
Fixpoint firstWith (value : string) (l : list Item) : option nat :=
  match l with
  | [] => None
  | it :: l' =>
      if String.eqb (messageId it) value then Some 0
      else option_map S (firstWith value l')
  end.

(** [container.querySelector(selector)]: the first match in document order
    or null; a malformed selector throws. *)
Definition querySelector (selector : string) : M (option nat) :=
  fun w =>
    match Css.parse selector with
    | Css.AttributeEquals v => Ok (firstWith v (items (element w))) w
    | Css.Malformed => Thrown SyntaxError w
    | Css.SelectorNotModelled => NotModelled
    end.

(** [message.textContent] of the message at index [i]. *)
Definition textContentAt (i : nat) : M string :=
  gets (fun w =>
          match nth_error (items (element w)) i with
          | Some it => Html.textContent (content it)
          | None => EmptyString
          end).

(** [message.innerHTML = markup] *)
Definition setInnerHTML (i : nat) (markup : string) : M unit :=
  match Html.parseFragment markup with
  | Some kids => modify (fun w => withElement (withContent i kids (element w)) w)
  | None => notModelled
  end.

(** To which side the content of the container overflows its box.  A
    column laid out from the top overflows downward and takes offsets from 0
    up; a reversed column, which is what the class list of the component
    asks for (flex-col-reverse), overflows upward and takes offsets from 0
    down. *)
Inductive Overflow : Type := Downward | Upward.

(** What layout decides about the container: where the page puts the scroll
    offset when asked to bring a message to the centre of the viewport, how
    high the box of the container is, and to which side it overflows. *)
Record Layout : Type := mkLayout {
  centred : Container -> nat -> Z;
  clientHeight : Z;
  overflow : Overflow
}.

(** How far the container can be scrolled: the part of its content that
    does not fit its box. *)
Definition scrollRoom (ly : Layout) (c : Container) : Z :=
  Z.max 0 (scrollHeight c - clientHeight ly).

Definition minScrollTop (ly : Layout) (c : Container) : Z :=
  match overflow ly with
  | Downward => 0
  | Upward => - scrollRoom ly c
  end.

Definition maxScrollTop (ly : Layout) (c : Container) : Z :=
  match overflow ly with
  | Downward => scrollRoom ly c
  | Upward => 0
  end.

(** The offset the container takes when [v] is assigned: the nearest one
    it can hold. *)
Definition clampScrollTop (ly : Layout) (c : Container) (v : Z) : Z :=
  Z.max (minScrollTop ly c) (Z.min v (maxScrollTop ly c)).

(** [container.scrollTop = v] *)
Definition setScrollTop (ly : Layout) (v : Z) : M unit :=
  modify (fun w =>
            withElement
              (withScrollTop (clampScrollTop ly (element w) v) (element w))
              w).

Definition call (c : Call) : M unit :=
  modify (fun w =>
            mkWorld (element w) (mounted w) (prevScrollHeightRef w)
                    (timers w) (calls w ++ [c])).

(** [setTimeout(task, delay)] *)
Definition setTimeout (t : Task) (ms : Z) : M unit :=
  modify (fun w =>
            mkWorld (element w) (mounted w) (prevScrollHeightRef w)
                    (timers w ++ [mkTimer t ms]) (calls w)).

Definition setPrevScrollHeight (v : Z) : M unit :=
  modify (fun w => mkWorld (element w) (mounted w) v (timers w) (calls w)).

(** What a timer does when it fires. *)
Definition runTask (t : Task) : M unit :=
  match t with
  | ReleaseLoading => call (SetIsLoading false)
  end.

(** [message.scrollIntoView({ behavior, block })] *)
Definition scrollIntoView (ly : Layout) (i : nat) (b : ScrollBehavior)
           (k : ScrollBlock) : M unit :=
  bind (call (ScrollIntoView i b k))
       (fun _ =>
          match k with
          | BlockCenter =>
              modify (fun w =>
                        withElement
                          (withScrollTop (centred ly (element w) i) (element w))
                          w)
          | _ => notModelled
          end).

End Dom.

Notation "x <- m ;; k" := (Dom.bind m (fun x => k))
  (at level 61, m at next level, right associativity).
Notation "m ;;; k" := (Dom.bind m (fun _ => k))
  (at level 61, right associativity).

(** ** The component *)

Import Dom.

Inductive Direction : Type := Up | Middle | Down.

(** The props the three effects read.  The callbacks loadMoreTop,
    loadMoreBottom and setIsLoading appear as the calls made to them. *)
Record InfiniteScrollProps : Type := mkProps {
  isLoading : bool;
  isTopFetchMore : bool;
  isBottomFetchMore : bool;
  direction : Direction;
  cursor : option string;
  searchQuery : string;
  searchedMessageIds : list string;
  searchedMessageColor : string
}.

(** An IntersectionObserverEntry, as far as the component looks at it. *)
Record IntersectionObserverEntry : Type := mkEntry {
  isIntersecting : bool;
  targetId : string
}.

(** *** Pagination trigger (index.tsx, lines 53 to 66) *)

Definition observerCallback (p : InfiniteScrollProps)
           (entries : list IntersectionObserverEntry) : M unit :=
  forEach entries (fun entry =>
    current <- gets mounted ;;
    if isIntersecting entry && negb (isLoading p) && current then
      if String.eqb (targetId entry) "top-sentinel" && isTopFetchMore p
      then call LoadMoreTop
      else if String.eqb (targetId entry) "bottom-sentinel"
              && isBottomFetchMore p
      then call LoadMoreBottom
      else ret tt
    else ret tt).

(** *** Reflow compensator (index.tsx, lines 98 to 123) *)

(** The template [[data-message-id="${id}"]]. *)
Definition messageSelector (id : string) : string :=
  "[data-message-id=" +++ String Js.dquote (id +++ String Js.dquote "]").

Definition resizeCallback (ly : Layout) (p : InfiniteScrollProps) : M unit :=
  current <- gets mounted ;;
  if current then
    newScrollHeight <- gets (fun w => scrollHeight (element w)) ;;
    prev <- gets prevScrollHeightRef ;;
    let scrollHeightDiff := (newScrollHeight - prev)%Z in
    match direction p with
    | Up =>
        top <- gets (fun w => scrollTop (element w)) ;;
        setScrollTop ly (top + scrollHeightDiff)%Z
    | Down => setScrollTop ly (- scrollHeightDiff)%Z
    | Middle =>
        targetMessage <-
          querySelector (messageSelector (Js.stringOfNullable (cursor p))) ;;
        match targetMessage with
        | Some i =>
            scrollIntoView ly i BehaviorAuto BlockCenter ;;;
            setTimeout ReleaseLoading 1000
        | None => ret tt
        end
    end ;;;
    setPrevScrollHeight newScrollHeight
  else ret tt.

(** *** Search highlighter (index.tsx, lines 135 to 175) *)

(** The marker around one occurrence:
    [<span class="${searchedMessageColor} text-text-white">${part}</span>]. *)
Definition highlightMarkup (color part : string) : string :=
  "<span class=" +++ String Js.dquote
    (color +++ " text-text-white" +++ String Js.dquote (">" +++ part +++ "</span>")).

Definition highlightPart (p : InfiniteScrollProps) (part : string) : string :=
  if String.eqb (Js.toLowerCase part) (Js.toLowerCase (searchQuery p))
  then highlightMarkup (searchedMessageColor p) part
  else part.

(** [new RegExp(source, "gi")] inside the effect. *)
Definition newRegExp (source : string) : M (list Js.atom) :=
  match Js.newRegExp source with
  | Js.Compiled body => ret body
  | Js.BadPattern => throw SyntaxError
  | Js.PatternNotModelled => notModelled
  end.

Definition highlightMessage (p : InfiniteScrollProps) (messageId : string)
  : M unit :=
  messageElement <- querySelector (messageSelector messageId) ;;
  match messageElement with
  | Some i =>
      originalText <- textContentAt i ;;
      if Js.truthy originalText then
        if Js.includes (Js.toLowerCase originalText)
                       (Js.toLowerCase (searchQuery p))
        then
          re <- newRegExp ("(" +++ searchQuery p +++ ")") ;;
          let parts := Js.split re originalText in
          let highlightedContent := Js.join (map (highlightPart p) parts) in
          setInnerHTML i highlightedContent
        else ret tt
      else ret tt
  | None => ret tt
  end.

Definition restoreMessage (messageId : string) : M unit :=
  messageElement <- querySelector (messageSelector messageId) ;;
  match messageElement with
  | Some i =>
      text <- textContentAt i ;;
      if Js.truthy text then setInnerHTML i text else ret tt
  | None => ret tt
  end.

(** The function the effect returns.  It works on the element captured when
    the effect ran, whether or not scrollRef still points to it. *)
Definition highlightCleanup (ids : list string) : M unit :=
  forEach ids restoreMessage.

(** The effect: its result is the cleanup it registered, if any. *)
Definition highlightEffect (p : InfiniteScrollProps) : M (option (M unit)) :=
  current <- gets mounted ;;
  if negb (Js.truthy (searchQuery p)) || negb current
     || Nat.eqb (List.length (searchedMessageIds p)) 0
  then ret None
  else
    forEach (searchedMessageIds p) (highlightMessage p) ;;;
    ret (Some (highlightCleanup (searchedMessageIds p))).

(** Running an effect and then the cleanup it returned, as React does when
    the dependencies change or the component unmounts. *)
Definition highlightThenCleanup (p : InfiniteScrollProps) : M unit :=
  cleanup <- highlightEffect p ;;
  match cleanup with
  | Some undo => undo
  | None => ret tt
  end.

(** ** Reference definitions taken from the specification *)

(** The specification of the highlighter speaks of the case-insensitive
    occurrences of the query in a text.  [occursAt] and [occurrences] follow
    those words: an occurrence is a place where the text, lower-cased, goes
    on with the lower-cased query; occurrences are taken from the left and
    do not overlap.  The result lists the plain pieces and the occurrences
    in order ([true] marks an occurrence). *)
Definition occursAt (query text : string) : bool :=
  Js.startsWith (Js.toLowerCase text) (Js.toLowerCase query).

Fixpoint firstChars (n : nat) (s : string) : string :=
  match n, s with
  | S k, String c r => String c (firstChars k r)
  | _, _ => EmptyString
  end.

Fixpoint dropChars (n : nat) (s : string) : string :=
  match n, s with
  | S k, String _ r => dropChars k r
  | _, _ => s
  end.

Fixpoint occurrencesFrom (query : string) (skip : nat) (seg rest : string)
  : list (bool * string) :=
  match rest with
  | EmptyString => [(false, seg)]
  | String c rest' =>
      match skip with
      | S k => occurrencesFrom query k seg rest'
      | O =>
          if occursAt query rest
          then (false, seg)
                 :: (true, firstChars (String.length query) rest)
                 :: occurrencesFrom query (String.length query - 1)
                                    EmptyString rest'
          else occurrencesFrom query 0 (seg +++ String c EmptyString) rest'
      end
  end.

Definition occurrences (query text : string) : list (bool * string) :=
  occurrencesFrom query 0 EmptyString text.

(** The class of the marker: the style token and the fixed text colour. *)
Definition markerClass (color : string) : string :=
  color +++ " text-text-white".

(** A piece of plain text as nodes: one text node, or nothing when the piece
    is empty. *)
Definition textNodes (s : string) : list Html.node :=
  if Js.truthy s then [Html.Text s] else [].

Definition pieceNodes (color : string) (piece : bool * string)
  : list Html.node :=
  if fst piece then [Html.span (markerClass color) [Html.Text (snd piece)]]
  else textNodes (snd piece).

(** The nodes the specification asks for: each occurrence inside a marker
    that carries the style token, each non-empty plain piece as text. *)
Definition expectedNodes (color query text : string) : list Html.node :=
  flat_map (pieceNodes color) (occurrences query text).

(** ** Well-formed inputs

    The strings the component interpolates unescaped, and the conditions
    under which each of them means what it says. *)

(** An id whose selector is the attribute test for that very id: no double
    quote, backslash, line break or NUL. *)
Definition plainId (id : string) : bool :=
  negb (Js.anyChar (fun c => Ascii.eqb c Js.dquote || Css.isEscapeOrBreak c)
                   id).

(** A text that innerHTML reads back as itself: no less-than sign, ampersand,
    NUL or carriage return. *)
Definition isMarkupChar (c : ascii) : bool :=
  Ascii.eqb c "<"%char || Ascii.eqb c "&"%char || Html.isNulOrCr c.

Definition plainText (s : string) : bool :=
  negb (Js.anyChar isMarkupChar s).

(** A class value that stays inside its quotes. *)
Definition isClassBreaker (c : ascii) : bool :=
  Ascii.eqb c Js.dquote || Ascii.eqb c "&"%char || Html.isNulOrCr c.

Definition plainClass (s : string) : bool :=
  negb (Js.anyChar isClassBreaker s).

(** A query without any character of the pattern syntax, and the pattern
    body it then compiles to. *)
Definition literalQuery (q : string) : bool :=
  negb (Js.anyChar Js.isSyntaxChar q).

Definition literalAtoms (q : string) : list Js.atom :=
  map Js.Lit (list_ascii_of_string q).

(** The plain pieces and the occurrences of a query, alternating, with what
    the highlighter relies on for each. *)
Inductive pieces (query : string) : list (bool * string) -> Prop :=
| pieces_last (s : string) :
    plainText s = true ->
    Js.toLowerCase s <> Js.toLowerCase query ->
    pieces query [(false, s)]
| pieces_more (s m : string) (l : list (bool * string)) :
    plainText s = true ->
    Js.toLowerCase s <> Js.toLowerCase query ->
    plainText m = true ->
    Js.truthy m = true ->
    Js.toLowerCase m = Js.toLowerCase query ->
    pieces query l ->
    pieces query ((false, s) :: (true, m) :: l).

(** The text of the message at an index, and the page with the content of
    that message replaced. *)
Definition textAt (i : nat) (w : World) : string :=
  match nth_error (items (element w)) i with
  | Some it => Html.textContent (content it)
  | None => EmptyString
  end.

Definition pageWithContent (i : nat) (kids : list Html.node) (w : World)
  : World :=
  withElement (withContent i kids (element w)) w.

(** A computation is silent when, however it ends, it has made no call and
    registered no timeout.  Nothing is said about a run that leaves the
    modelled fragment. *)
Definition silent {A : Type} (m : M A) : Prop :=
  forall w,
    match m w with
    | Ok _ w' => timers w' = timers w /\ calls w' = calls w
    | Thrown _ w' => timers w' = timers w /\ calls w' = calls w
    | NotModelled => True
    end.

(** ** Sample pages used by the examples below *)

(** A container 600 pixels high whose column is reversed, with every
    message centred at offset 0. *)
Definition flatLayout : Layout := mkLayout (fun _ _ => 0%Z) 600 Upward.

Definition sampleProps (d : Direction) (c : option string) (query : string)
           (ids : list string) : InfiniteScrollProps :=
  mkProps false true true d c query ids "bg-border-surface-accent-red-orange".

Definition samplePage (prev height top : Z) (its : list Item) : World :=
  mkWorld (mkContainer height top its) true prev [] [].

(** The content of the message at an index, when the run ended normally. *)
Definition contentAfter (r : Res unit) (i : nat) : option (list Html.node) :=
  match r with
  | Ok _ w => option_map content (nth_error (items (element w)) i)
  | _ => None
  end.

(** ** Further definitions

    Names for what the callbacks leave behind, used by the theorems on the
    rest of the component. *)

(** The body of the loop of observerCallback, for one entry. *)
Definition observerEntry (p : InfiniteScrollProps)
           (entry : IntersectionObserverEntry) : M unit :=
  current <- gets mounted ;;
  if isIntersecting entry && negb (isLoading p) && current then
    if String.eqb (targetId entry) "top-sentinel" && isTopFetchMore p
    then call LoadMoreTop
    else if String.eqb (targetId entry) "bottom-sentinel"
            && isBottomFetchMore p
    then call LoadMoreBottom
    else ret tt
  else ret tt.

(** The call one entry leads to when the flag is down and the container is
    mounted: none, or one of the two load callbacks. *)
Definition requestedBy (p : InfiniteScrollProps)
           (entry : IntersectionObserverEntry) : list Call :=
  if isIntersecting entry then
    if String.eqb (targetId entry) "top-sentinel" && isTopFetchMore p
    then [LoadMoreTop]
    else if String.eqb (targetId entry) "bottom-sentinel"
            && isBottomFetchMore p
    then [LoadMoreBottom]
    else []
  else [].

Definition withCalls (cs : list Call) (w : World) : World :=
  mkWorld (element w) (mounted w) (prevScrollHeightRef w) (timers w) cs.

(** What a size change may do to the page.  When it returns, the messages,
    the extent and the mounting are as before, and either no call was made
    and no timeout registered, or exactly the jump happened: one
    scrollIntoView and one timeout of 1000 ms.  When it throws, nothing was
    changed at all. *)
Definition resizeFrame (w : World) (r : Res unit) : Prop :=
  match r with
  | Ok _ w' =>
      items (element w') = items (element w)
      /\ scrollHeight (element w') = scrollHeight (element w)
      /\ mounted w' = mounted w
      /\ ((timers w' = timers w /\ calls w' = calls w)
          \/ exists i,
               timers w' = timers w ++ [mkTimer ReleaseLoading 1000]
               /\ calls w'
                  = calls w ++ [ScrollIntoView i BehaviorAuto BlockCenter])
  | Thrown _ w' => w' = w
  | NotModelled => True
  end.

(** The text of a message, and the page with another list of messages. *)
Definition messageText (it : Item) : string := Html.textContent (content it).

Definition withItems (l : list Item) (w : World) : World :=
  withElement (mkContainer (scrollHeight (element w)) (scrollTop (element w)) l)
              w.

Fixpoint updateAt (i : nat) (f : Item -> Item) (l : list Item) : list Item :=
  match l, i with
  | [], _ => []
  | it :: l', O => f it :: l'
  | it :: l', S j => it :: updateAt j f l'
  end.



(** A message after the cleanup has looked at it: one text node with its
    text, unless the text is empty. *)
Definition flattenedItem (it : Item) : Item :=
  if Js.truthy (messageText it)
  then mkItem (messageId it) [Html.Text (messageText it)]
  else it.






Definition asciiTexts (l : list Item) : Prop :=
  Forall (fun it => Js.isAscii (messageText it) = true) l.

(** Two pages with the same messages in the same order, up to their
    contents, and the same mounting, snapshot, timeouts and calls.  The
    extent and the offset of the container are left out: they follow the
    layout of the contents. *)
Definition sameButContents (w w' : World) : Prop :=
  map messageId (items (element w')) = map messageId (items (element w))
  /\ mounted w' = mounted w
  /\ prevScrollHeightRef w' = prevScrollHeightRef w
  /\ timers w' = timers w
  /\ calls w' = calls w.

(** A computation that, when it ends normally or throws, has written
    nothing but contents of messages.  Nothing is said about a run that
    leaves the modelled fragment. *)
Definition editsContentsOnly {A : Type} (m : M A) : Prop :=
  forall w,
    match m w with
    | Ok _ w' => sameButContents w w'
    | Thrown _ w' => sameButContents w w'
    | NotModelled => True
    end.


Definition withQuery (q : string) (p : InfiniteScrollProps)
  : InfiniteScrollProps :=
  mkProps (isLoading p) (isTopFetchMore p) (isBottomFetchMore p) (direction p)
          (cursor p) q (searchedMessageIds p) (searchedMessageColor p).






(** ** What the component renders and what it observes
       (index.tsx, lines 68 to 84 and 184 to 208) *)

(** The nodes the caller supplies: loader, scrollLoader and children. *)
Inductive Slot : Type := LoaderSlot | ScrollLoaderSlot | ChildrenSlot.

Inductive RefName : Type := ScrollRef | TopSentinelRef | BottomSentinelRef.

#[local] Set Warnings "-register-all".

(** A rendered div with its ref, id and class, or a slot of the caller. *)
Inductive VNode : Type :=
| VDiv (ref : option RefName) (id : option string) (className : string)
       (kids : list VNode)
| VSlot (s : Slot).

Definition sameRef (a b : RefName) : bool :=
  match a, b with
  | ScrollRef, ScrollRef => true
  | TopSentinelRef, TopSentinelRef => true
  | BottomSentinelRef, BottomSentinelRef => true
  | _, _ => false
  end.

Definition topSentinel : VNode :=
  VDiv (Some TopSentinelRef) (Some "top-sentinel"%string) EmptyString
       [VSlot ScrollLoaderSlot].

Definition bottomSentinel : VNode :=
  VDiv (Some BottomSentinelRef) (Some "bottom-sentinel"%string) EmptyString
       [VSlot ScrollLoaderSlot].

(** The markup the component returns.  The helper cn of lib/utils is not
    part of the sources and is taken as a parameter. *)
Definition render (cn : option string -> string -> string)
           (className : option string) (p : InfiniteScrollProps) : VNode :=
  VDiv (Some ScrollRef) None
       (cn className
           "bg-background-alternative h-full w-full min-w-[320px] px-4 py-0 overflow-y-auto flex flex-col-reverse"%string)
       ((if isLoading p then [VSlot LoaderSlot] else [])
        ++ [VDiv None None "flex flex-col gap-x-2 w-full py-3 relative"
                 ((if isTopFetchMore p then [topSentinel] else [])
                  ++ [VSlot ChildrenSlot]
                  ++ (if isBottomFetchMore p then [bottomSentinel] else []))]).

(** [ref.current] once the markup is on the page: the element that carries
    the ref, or null when none was rendered. *)
Fixpoint refCurrent (r : RefName) (n : VNode) : option VNode :=
  match n with
  | VSlot _ => None
  | VDiv ref _ _ kids =>
      if match ref with Some r' => sameRef r r' | None => false end
      then Some n
      else (fix first (l : list VNode) : option VNode :=
              match l with
              | [] => None
              | k :: l' =>
                  match refCurrent r k with
                  | Some e => Some e
                  | None => first l'
                  end
              end) kids
  end.

(** [element.id]: the id attribute, or the empty string. *)
Definition elementId (n : VNode) : string :=
  match n with
  | VDiv _ (Some id) _ _ => id
  | _ => EmptyString
  end.

(** The props threshold and rootMargin, each possibly left out.  A
    threshold is a finite number, taken here as a rational. *)
Record ObserverTuning : Type := mkTuning {
  threshold : option QArith_base.Q;
  rootMargin : option string
}.

Record IntersectionObserver : Type := mkObserver {
  root : option VNode;
  observerThreshold : QArith_base.Q;
  observerRootMargin : string;
  targets : list VNode
}.

(** What the constructor makes of the rootMargin option, for margins
    written as values separated by single spaces, each value an optional
    minus sign, digits, and px or the percent sign.  One to four such values
    are a margin, more are a failure; any other string is outside the
    model. *)
Inductive marginSyntax : Type :=
| MarginOk
| MarginFailure
| MarginNotModelled.

Definition isDigit (c : ascii) : bool :=
  (48 <=? nat_of_ascii c)%nat && (nat_of_ascii c <=? 57)%nat.

(** What follows the first digit of a value: more digits, then the unit. *)
Fixpoint afterDigit (s : string) : bool :=
  match s with
  | EmptyString => false
  | String c r =>
      if isDigit c then afterDigit r
      else String.eqb s "px" || String.eqb s "%"
  end.

Definition isMarginValue (s : string) : bool :=
  match (match s with
         | String c r => if Ascii.eqb c "-"%char then r else s
         | EmptyString => s
         end) with
  | String d r => isDigit d && afterDigit r
  | EmptyString => false
  end.

Fixpoint splitOnSpace (value rest : string) : list string :=
  match rest with
  | EmptyString => [value]
  | String c r =>
      if Ascii.eqb c " "%char then value :: splitOnSpace EmptyString r
      else splitOnSpace (value +++ String c EmptyString) r
  end.

Definition parseRootMargin (s : string) : marginSyntax :=
  let values := splitOnSpace EmptyString s in
  if forallb isMarginValue values
  then if (List.length values <=? 4)%nat then MarginOk else MarginFailure
  else MarginNotModelled.

Definition thresholdInRange (v : QArith_base.Q) : bool :=
  QArith_base.Qle_bool (QArith_base.Qmake 0 1) v
  && QArith_base.Qle_bool v (QArith_base.Qmake 1 1).

(** What a constructor call comes to: the object, an exception, or a call
    outside the model. *)
Inductive Constructed (A : Type) : Type :=
| Built (a : A)
| ConstructorThrows (e : Exn)
| ConstructorNotModelled.

Arguments Built {A} a.
Arguments ConstructorThrows {A} e.
Arguments ConstructorNotModelled {A}.

(** [new IntersectionObserver(callback, { root, threshold, rootMargin })]:
    a margin that does not parse is a SyntaxError, and then a threshold
    below 0 or above 1 is a RangeError; nothing is observed yet. *)
Definition newIntersectionObserver (root : option VNode)
           (threshold : QArith_base.Q) (rootMargin : string)
  : Constructed IntersectionObserver :=
  match parseRootMargin rootMargin with
  | MarginOk =>
      if thresholdInRange threshold
      then Built (mkObserver root threshold rootMargin [])
      else ConstructorThrows RangeError
  | MarginFailure => ConstructorThrows SyntaxError
  | MarginNotModelled => ConstructorNotModelled
  end.

(** [observer.observe(el)]; the component observes an element once. *)
Definition observe (el : VNode) (o : IntersectionObserver)
  : IntersectionObserver :=
  mkObserver (root o) (observerThreshold o) (observerRootMargin o)
             (targets o ++ [el]).

(** [observer.disconnect()] *)
Definition disconnect (o : IntersectionObserver) : IntersectionObserver :=
  mkObserver (root o) (observerThreshold o) (observerRootMargin o) [].

Definition observeIfCurrent (ref : option VNode) (o : IntersectionObserver)
  : IntersectionObserver :=
  match ref with
  | Some el => observe el o
  | None => o
  end.

(** The effect that registers the visibility observer: the options with
    their defaults (0.5 and 100px), the constructor, then the two sentinels
    when their refs are set.  When the constructor throws, the effect ends
    there and nothing is observed.  Its cleanup is [disconnect]. *)
Definition visibilityEffect (t : ObserverTuning) (tree : VNode)
  : Constructed IntersectionObserver :=
  match newIntersectionObserver
          (refCurrent ScrollRef tree)
          (match threshold t with
           | Some v => v
           | None => QArith_base.Qmake 1 2
           end)
          (match rootMargin t with
           | Some m => m
           | None => "100px"%string
           end) with
  | Built observer =>
      Built (observeIfCurrent (refCurrent BottomSentinelRef tree)
               (observeIfCurrent (refCurrent TopSentinelRef tree) observer))
  | ConstructorThrows e => ConstructorThrows e
  | ConstructorNotModelled => ConstructorNotModelled
  end.

(** The options the constructor takes without throwing. *)
Definition acceptedTuning (t : ObserverTuning) : bool :=
  match rootMargin t with
  | Some m =>
      match parseRootMargin m with MarginOk => true | _ => false end
  | None => true
  end
  && match threshold t with
     | Some v => thresholdInRange v
     | None => true
     end.

(** The entry the page reports for an observed element. *)
Definition entryFor (report : VNode * bool) : IntersectionObserverEntry :=
  mkEntry (snd report) (elementId (fst report)).

(** The load callback that belongs to a sentinel, by the ref it carries. *)
Definition loadFor (el : VNode) : list Call :=
  match el with
  | VDiv (Some TopSentinelRef) _ _ _ => [LoadMoreTop]
  | VDiv (Some BottomSentinelRef) _ _ _ => [LoadMoreBottom]
  | _ => []
  end.

(** * Theorems *)

(** ** Strings *)

Lemma append_empty (s : string) : s +++ EmptyString = s.
Proof. induction s; simpl; congruence. Qed.

Lemma append_assoc (a b c : string) : (a +++ b) +++ c = a +++ (b +++ c).
Proof. induction a; simpl; congruence. Qed.

Lemma anyChar_append (f : ascii -> bool) (a b : string) :
  Js.anyChar f (a +++ b) = Js.anyChar f a || Js.anyChar f b.
Proof.
  induction a as [|c a IH]; simpl; [reflexivity|].
  now rewrite IH, orb_assoc.
Qed.

Lemma toLowerCase_append (a b : string) :
  Js.toLowerCase (a +++ b) = Js.toLowerCase a +++ Js.toLowerCase b.
Proof. induction a; simpl; congruence. Qed.

Lemma startsWith_append (a b : string) : Js.startsWith (a +++ b) a = true.
Proof.
  induction a as [|c a IH]; simpl; [reflexivity|].
  now rewrite Ascii.eqb_refl.
Qed.

Lemma firstChars_dropChars (n : nat) (s : string) :
  firstChars n s +++ dropChars n s = s.
Proof.
  revert s. induction n as [|n IH]; intros [|c s]; simpl; try reflexivity.
  now rewrite IH.
Qed.

(** The two case mappings identify the same pairs of characters, so the
    comparison of the regular expression (upper case) and the comparisons of
    the component (lower case) agree. *)
Lemma lower_of_upper (c : ascii) :
  Js.lowerChar (Js.upperChar c) = Js.lowerChar c.
Proof. destruct c as [[] [] [] [] [] [] [] []]; reflexivity. Qed.

Lemma upper_of_lower (c : ascii) :
  Js.upperChar (Js.lowerChar c) = Js.upperChar c.
Proof. destruct c as [[] [] [] [] [] [] [] []]; reflexivity. Qed.

Lemma same_letter (a b : ascii) :
  Ascii.eqb (Js.upperChar a) (Js.upperChar b)
  = Ascii.eqb (Js.lowerChar a) (Js.lowerChar b).
Proof.
  destruct (Ascii.eqb_spec (Js.upperChar a) (Js.upperChar b)) as [Hu|Hu];
    destruct (Ascii.eqb_spec (Js.lowerChar a) (Js.lowerChar b)) as [Hl|Hl];
    try reflexivity; exfalso.
  - apply Hl. rewrite <- (lower_of_upper a), <- (lower_of_upper b).
    now rewrite Hu.
  - apply Hu. rewrite <- (upper_of_lower a), <- (upper_of_lower b).
    now rewrite Hl.
Qed.

(** ** Pagination trigger *)

Lemma forEach_skip {A : Type} (f : A -> M unit) (l : list A) (w : World) :
  (forall x, In x l -> f x w = Ok tt w) ->
  forEach l f w = Ok tt w.
Proof.
  induction l as [|x l IH]; intros Hskip.
  - reflexivity.
  - simpl. unfold bind. rewrite (Hskip x (or_introl eq_refl)).
    apply IH. intros y Hy. apply Hskip. now right.
Qed.

(** C1.  While isLoading is true the visibility callback calls neither
    loadMoreTop nor loadMoreBottom, whatever the batch of entries says: the
    run ends normally and leaves the page, and with it the list of calls,
    as it was. *)
Theorem observerCallback_loading_guard :
  forall (p : InfiniteScrollProps) (entries : list IntersectionObserverEntry)
         (w : World),
    isLoading p = true ->
    observerCallback p entries w = Ok tt w.
Proof.
  intros p entries w Hload. unfold observerCallback.
  apply forEach_skip. intros entry _.
  unfold bind, gets. rewrite Hload. simpl.
  now rewrite andb_false_r.
Qed.

Lemma observerCallback_loading_guard_witness :
  observerCallback
    (mkProps true true true Up None EmptyString [] EmptyString)
    [mkEntry true "top-sentinel"; mkEntry true "bottom-sentinel"]
    (samplePage 0 1000 0 [])
  = Ok tt (samplePage 0 1000 0 []).
Proof.
  apply observerCallback_loading_guard. reflexivity.
Defined.

(** With the flag down the same batch does reach both callbacks, so the
    guard above is what holds them back. *)
Example observerCallback_fires_when_idle :
  observerCallback
    (mkProps false true true Up None EmptyString [] EmptyString)
    [mkEntry true "top-sentinel"; mkEntry true "bottom-sentinel"]
    (samplePage 0 1000 0 [])
  = Ok tt (mkWorld (mkContainer 1000 0 []) true 0 []
                   [LoadMoreTop; LoadMoreBottom]).
Proof. reflexivity. Qed.

(** ** Lookups *)

(** A lookup never changes the page: when it returns, the page is the one it
    was given. *)
Lemma querySelector_pure (selector : string) (w w' : World)
      (found : option nat) :
  querySelector selector w = Ok found w' -> w' = w.
Proof.
  unfold querySelector. destruct (Css.parse selector); intros H;
    now inversion H.
Qed.

Lemma quoted_plain (id acc : string) :
  plainId id = true ->
  Css.quoted acc (id +++ String Js.dquote "]")
  = Css.AttributeEquals (acc +++ id).
Proof.
  revert acc. induction id as [|c id IH]; intros acc Hplain.
  - simpl. now rewrite append_empty.
  - unfold plainId in Hplain. simpl in Hplain.
    rewrite negb_orb in Hplain. apply andb_prop in Hplain as [Hc Hrest].
    rewrite negb_orb in Hc. apply andb_prop in Hc as [Hq He].
    apply negb_true_iff in Hq, He.
    simpl. rewrite Hq, He. rewrite IH by exact Hrest.
    now rewrite append_assoc.
Qed.

(** For a plain id the lookup is the search for the first message with that
    id, and it cannot throw. *)
Lemma querySelector_plain (id : string) (w : World) :
  plainId id = true ->
  querySelector (messageSelector id) w
  = Ok (firstWith id (items (element w))) w.
Proof.
  intros Hplain. unfold querySelector, Css.parse.
  replace (Css.dropPrefix Css.attributePrefix (messageSelector id))
    with (Some (id +++ String Js.dquote "]")) by reflexivity.
  now rewrite quoted_plain.
Qed.

Lemma firstWith_nth_error (v : string) (l : list Item) (i : nat) :
  firstWith v l = Some i ->
  exists it, nth_error l i = Some it /\ messageId it = v.
Proof.
  revert i. induction l as [|x l IH]; intros i H; [discriminate|].
  simpl in H. destruct (String.eqb_spec (messageId x) v) as [He|He].
  - inversion H. subst i. now exists x.
  - destruct (firstWith v l) as [j|]; [|discriminate].
    inversion H. subst i. destruct (IH j eq_refl) as [it Hit].
    now exists it.
Qed.

(** ** Reflow compensator *)

(** An assignment inside the range is kept as it is, and every assignment
    ends inside the range. *)
Lemma clampScrollTop_within (ly : Layout) (c : Container) (v : Z) :
  (minScrollTop ly c <= v <= maxScrollTop ly c)%Z ->
  clampScrollTop ly c v = v.
Proof. unfold clampScrollTop. lia. Qed.

Lemma scrollRange_not_empty (ly : Layout) (c : Container) :
  (minScrollTop ly c <= 0 <= maxScrollTop ly c)%Z.
Proof.
  unfold minScrollTop, maxScrollTop, scrollRoom.
  destruct (overflow ly); lia.
Qed.

Lemma clampScrollTop_bounds (ly : Layout) (c : Container) (v : Z) :
  (minScrollTop ly c <= clampScrollTop ly c v <= maxScrollTop ly c)%Z.
Proof.
  pose proof (scrollRange_not_empty ly c). unfold clampScrollTop. lia.
Qed.

(** The up and down branches as one step of the page. *)
Lemma resize_up_run (ly : Layout) (p : InfiniteScrollProps) (w : World) :
  direction p = Up ->
  mounted w = true ->
  resizeCallback ly p w
  = Ok tt (mkWorld
             (withScrollTop
                (clampScrollTop ly (element w)
                   (scrollTop (element w)
                    + (scrollHeight (element w) - prevScrollHeightRef w)))
                (element w))
             true (scrollHeight (element w)) (timers w) (calls w)).
Proof.
  intros Hdir Hm. unfold resizeCallback, bind, gets. rewrite Hm, Hdir.
  unfold setScrollTop, setPrevScrollHeight, modify, withElement.
  cbn [element mounted timers calls prevScrollHeightRef]. now rewrite Hm.
Qed.

Lemma resize_down_run (ly : Layout) (p : InfiniteScrollProps) (w : World) :
  direction p = Down ->
  mounted w = true ->
  resizeCallback ly p w
  = Ok tt (mkWorld
             (withScrollTop
                (clampScrollTop ly (element w)
                   (- (scrollHeight (element w) - prevScrollHeightRef w)))
                (element w))
             true (scrollHeight (element w)) (timers w) (calls w)).
Proof.
  intros Hdir Hm. unfold resizeCallback, bind, gets. rewrite Hm, Hdir.
  unfold setScrollTop, setPrevScrollHeight, modify, withElement.
  cbn [element mounted timers calls prevScrollHeightRef]. now rewrite Hm.
Qed.

(** C2, as amended.  With direction up and the container mounted, a size
    change ends normally and assigns to the scroll offset its old value plus
    the growth of the content, newExtent - previousExtent.  The offset the
    container then has is that sum brought into the range the container can
    hold; it is the sum itself whenever the sum lies in that range, so that
    from 1000 to 1400 the offset is exactly 400 more when the container can
    hold that offset. *)
Theorem resize_up_adds_delta_within_range :
  forall (ly : Layout) (p : InfiniteScrollProps) (w : World),
    direction p = Up ->
    mounted w = true ->
    exists w',
      resizeCallback ly p w = Ok tt w'
      /\ scrollTop (element w')
         = clampScrollTop ly (element w)
             (scrollTop (element w)
              + (scrollHeight (element w) - prevScrollHeightRef w))
      /\ ((minScrollTop ly (element w)
           <= scrollTop (element w)
              + (scrollHeight (element w) - prevScrollHeightRef w)
           <= maxScrollTop ly (element w))%Z ->
          scrollTop (element w')
          = (scrollTop (element w)
             + (scrollHeight (element w) - prevScrollHeightRef w))%Z)
      /\ (prevScrollHeightRef w = 1000%Z ->
          scrollHeight (element w) = 1400%Z ->
          (minScrollTop ly (element w) <= scrollTop (element w) + 400
           <= maxScrollTop ly (element w))%Z ->
          scrollTop (element w') = (scrollTop (element w) + 400)%Z).
Proof.
  intros ly p w Hdir Hm. rewrite (resize_up_run ly p w Hdir Hm).
  eexists. split; [reflexivity|]. cbn [element scrollTop withScrollTop].
  split; [reflexivity|]. split.
  - intros Hin. now apply clampScrollTop_within.
  - intros Hprev Hnew Hin. rewrite Hprev, Hnew.
    apply clampScrollTop_within. lia.
Qed.

Lemma resize_up_adds_delta_within_range_witness :
  exists w',
    resizeCallback flatLayout (sampleProps Up None EmptyString [])
                   (samplePage 1000 1400 (-600) []) = Ok tt w'
    /\ scrollTop (element w') = (-200)%Z.
Proof.
  destruct (resize_up_adds_delta_within_range
              flatLayout (sampleProps Up None EmptyString [])
              (samplePage 1000 1400 (-600) []) eq_refl eq_refl)
    as [w' [Hrun [_ [_ Hex]]]].
  exists w'. split; [exact Hrun|].
  apply (Hex eq_refl eq_refl). vm_compute. split; discriminate.
Defined.

(** The claim as first stated fails where the sum leaves the range.  In a
    reversed column 600 pixels high, at offset -250, a growth from 1000 to
    1400 asks for offset 150; the container stops at 0. *)
Lemma resize_up_adds_delta_counterexample :
  exists w',
    resizeCallback flatLayout (sampleProps Up None EmptyString [])
                   (samplePage 1000 1400 (-250) []) = Ok tt w'
    /\ scrollTop (element w') = 0%Z
    /\ scrollTop (element w') <> (-250 + (1400 - 1000))%Z.
Proof.
  rewrite resize_up_run by reflexivity.
  eexists. split; [reflexivity|]. vm_compute.
  split; [reflexivity|discriminate].
Qed.

(** C3, as amended.  With direction down and the container mounted, a size
    change ends normally and assigns to the scroll offset minus the growth
    of the content, whatever the offset was.  The offset the container then
    has is that value brought into the range the container can hold; it is
    the value itself whenever it lies in that range, so that from 1000 to
    1300 the offset is exactly -300 when the container can hold that
    offset. *)
Theorem resize_down_sets_minus_delta_within_range :
  forall (ly : Layout) (p : InfiniteScrollProps) (w : World),
    direction p = Down ->
    mounted w = true ->
    exists w',
      resizeCallback ly p w = Ok tt w'
      /\ scrollTop (element w')
         = clampScrollTop ly (element w)
             (- (scrollHeight (element w) - prevScrollHeightRef w))
      /\ ((minScrollTop ly (element w)
           <= - (scrollHeight (element w) - prevScrollHeightRef w)
           <= maxScrollTop ly (element w))%Z ->
          scrollTop (element w')
          = (- (scrollHeight (element w) - prevScrollHeightRef w))%Z)
      /\ (prevScrollHeightRef w = 1000%Z ->
          scrollHeight (element w) = 1300%Z ->
          (minScrollTop ly (element w) <= -300
           <= maxScrollTop ly (element w))%Z ->
          scrollTop (element w') = (-300)%Z).
Proof.
  intros ly p w Hdir Hm. rewrite (resize_down_run ly p w Hdir Hm).
  eexists. split; [reflexivity|]. cbn [element scrollTop withScrollTop].
  split; [reflexivity|]. split.
  - intros Hin. now apply clampScrollTop_within.
  - intros Hprev Hnew Hin. rewrite Hprev, Hnew.
    apply clampScrollTop_within. lia.
Qed.

Lemma resize_down_sets_minus_delta_within_range_witness :
  exists w',
    resizeCallback flatLayout (sampleProps Down None EmptyString [])
                   (samplePage 1000 1300 (-500) []) = Ok tt w'
    /\ scrollTop (element w') = (-300)%Z.
Proof.
  destruct (resize_down_sets_minus_delta_within_range
              flatLayout (sampleProps Down None EmptyString [])
              (samplePage 1000 1300 (-500) []) eq_refl eq_refl)
    as [w' [Hrun [_ [_ Hex]]]].
  exists w'. split; [exact Hrun|].
  apply (Hex eq_refl eq_refl). vm_compute. split; discriminate.
Defined.

(** The claim as first stated fails where minus the growth leaves the range.
    On the first event after mounting the snapshot is still 0: in a reversed
    column 600 pixels high with an extent of 1000 the code asks for offset
    -1000, and the container stops at -400.  When the content shrinks the
    code asks for an offset above 0, and the container stops at 0. *)
Lemma resize_down_sets_minus_delta_counterexample :
  (exists w',
     resizeCallback flatLayout (sampleProps Down None EmptyString [])
                    (samplePage 0 1000 0 []) = Ok tt w'
     /\ scrollTop (element w') = (-400)%Z
     /\ scrollTop (element w') <> (- (1000 - 0))%Z)
  /\ (exists w',
        resizeCallback flatLayout (sampleProps Down None EmptyString [])
                       (samplePage 1300 1000 (-100) []) = Ok tt w'
        /\ scrollTop (element w') = 0%Z
        /\ scrollTop (element w') <> (- (1000 - 1300))%Z).
Proof.
  split; rewrite resize_down_run by reflexivity; eexists;
    (split; [reflexivity|]); vm_compute; (split; [reflexivity|discriminate]).
Qed.

(** C4.  With direction middle, when the lookup of the cursor finds a
    message, the size change ends normally, scrollIntoView is called on that
    message with behavior auto and block center (the one call made, and the
    offset is where layout centres the message), and exactly one timeout is
    registered: after 1000 ms it calls setIsLoading(false). *)
Theorem resize_middle_found_scrolls_and_schedules :
  forall (ly : Layout) (p : InfiniteScrollProps) (w : World) (i : nat),
    direction p = Middle ->
    mounted w = true ->
    querySelector (messageSelector (Js.stringOfNullable (cursor p))) w
    = Ok (Some i) w ->
    exists w',
      resizeCallback ly p w = Ok tt w'
      /\ calls w' = calls w ++ [ScrollIntoView i BehaviorAuto BlockCenter]
      /\ scrollTop (element w') = centred ly (element w) i
      /\ timers w' = timers w ++ [mkTimer ReleaseLoading 1000]
      /\ forall v, runTask ReleaseLoading v
                   = Ok tt (mkWorld (element v) (mounted v)
                                    (prevScrollHeightRef v) (timers v)
                                    (calls v ++ [SetIsLoading false])).
Proof.
  intros ly p w i Hdir Hm Hfound.
  unfold resizeCallback, bind, gets. rewrite Hm, Hdir.
  unfold bind in *. rewrite Hfound. simpl.
  eexists. split; [reflexivity|]. simpl. repeat split.
Qed.

Lemma resize_middle_found_witness :
  exists w',
    resizeCallback flatLayout
                   (sampleProps Middle (Some "m42"%string) EmptyString [])
                   (samplePage 1000 1400 0
                      [mkItem "m41" []; mkItem "m42" []]) = Ok tt w'
    /\ calls w' = [] ++ [ScrollIntoView 1 BehaviorAuto BlockCenter]
    /\ scrollTop (element w') = 0%Z
    /\ timers w' = [] ++ [mkTimer ReleaseLoading 1000]
    /\ forall v, runTask ReleaseLoading v
                 = Ok tt (mkWorld (element v) (mounted v)
                                  (prevScrollHeightRef v) (timers v)
                                  (calls v ++ [SetIsLoading false])).
Proof.
  apply (resize_middle_found_scrolls_and_schedules
           flatLayout (sampleProps Middle (Some "m42"%string) EmptyString [])
           (samplePage 1000 1400 0 [mkItem "m41" []; mkItem "m42" []]) 1);
    reflexivity.
Defined.

(** For a plain cursor the message found is the first one whose identity is
    the cursor. *)
Lemma resize_middle_found_identity (p : InfiniteScrollProps) (w : World)
      (i : nat) :
  plainId (Js.stringOfNullable (cursor p)) = true ->
  querySelector (messageSelector (Js.stringOfNullable (cursor p))) w
  = Ok (Some i) w ->
  exists it, nth_error (items (element w)) i = Some it
             /\ messageId it = Js.stringOfNullable (cursor p).
Proof.
  intros Hplain Hq. rewrite querySelector_plain in Hq by exact Hplain.
  inversion Hq as [Hfound]. now apply firstWith_nth_error.
Qed.


(** C5.  The claim fails on a cursor that holds a double quote.  For the
    cursor made of one double quote, with no message of that identity on the
    page, the selector is malformed: querySelector throws a SyntaxError out
    of the size-change callback instead of reporting that nothing was
    found. *)
Theorem resize_middle_quote_cursor_throws :
  let p := sampleProps Middle (Some (String Js.dquote EmptyString))
                       EmptyString [] in
  let w := samplePage 1000 1400 (-250) [mkItem "m1" [Html.Text "hi"]] in
  firstWith (Js.stringOfNullable (cursor p)) (items (element w)) = None
  /\ resizeCallback flatLayout p w = Thrown SyntaxError w.
Proof. split; reflexivity. Qed.

(** On every path on which the callback ends normally with the container
    mounted, the snapshot is the extent read during the event. *)
Lemma resize_records_extent (ly : Layout) (p : InfiniteScrollProps)
      (w w' : World) :
  mounted w = true ->
  resizeCallback ly p w = Ok tt w' ->
  prevScrollHeightRef w' = scrollHeight (element w)
  /\ scrollHeight (element w') = scrollHeight (element w).
Proof.
  intros Hm. unfold resizeCallback, bind, gets. rewrite Hm.
  destruct (direction p).
  - simpl. intros H. inversion H. simpl. auto.
  - destruct (querySelector _ w) as [[i|] v| |] eqn:Hq; try discriminate.
    + apply querySelector_pure in Hq. subst v.
      simpl. intros H. inversion H. simpl. auto.
    + apply querySelector_pure in Hq. subst v.
      simpl. intros H. inversion H. simpl. auto.
  - simpl. intros H. inversion H. simpl. auto.
Qed.

(** The callback does end normally in the up and down branches, and in the
    middle branch whenever the cursor is plain. *)
Lemma resize_returns (ly : Layout) (p : InfiniteScrollProps) (w : World) :
  direction p <> Middle
  \/ plainId (Js.stringOfNullable (cursor p)) = true ->
  exists w', resizeCallback ly p w = Ok tt w'.
Proof.
  intros Hsafe. unfold resizeCallback, bind, gets.
  destruct (mounted w); [|eexists; reflexivity].
  destruct (direction p) eqn:Hdir.
  - eexists; reflexivity.
  - destruct Hsafe as [Hne|Hplain]; [congruence|].
    rewrite querySelector_plain by exact Hplain.
    destruct (firstWith _ _); eexists; reflexivity.
  - eexists; reflexivity.
Qed.

(** C6.  The claim fails in the middle branch when the lookup throws.  With
    the container mounted, a snapshot of 1000, an extent of 1400 and the
    cursor made of one double quote, the callback throws before the line
    that records the extent: the snapshot is still 1000. *)
Theorem resize_snapshot_stale_after_throw :
  let p := sampleProps Middle (Some (String Js.dquote EmptyString))
                       EmptyString [] in
  let w := samplePage 1000 1400 0 [] in
  mounted w = true
  /\ scrollHeight (element w) = 1400%Z
  /\ exists w', resizeCallback flatLayout p w = Thrown SyntaxError w'
                /\ prevScrollHeightRef w' = 1000%Z.
Proof.
  repeat split. eexists. split; reflexivity.
Qed.

(** A size change with direction up or down, or with the container
    unmounted, ends normally without registering a timeout and without any
    call. *)
Lemma resize_quiet (ly : Layout) (p : InfiniteScrollProps) (w : World) :
  direction p = Up \/ direction p = Down \/ mounted w = false ->
  exists w',
    resizeCallback ly p w = Ok tt w'
    /\ timers w' = timers w
    /\ calls w' = calls w.
Proof.
  intros Hcase. unfold resizeCallback, bind, gets.
  destruct (mounted w) eqn:Hm.
  - destruct Hcase as [Hd|[Hd|Hd]]; [rewrite Hd|rewrite Hd|discriminate];
      simpl; eexists; repeat split.
  - eexists; repeat split.
Qed.

(** ** The regular expression of a literal query *)

Lemma matchAt_literal (q s : string) :
  Js.matchAt (literalAtoms q) s
  = if occursAt q s then Some (firstChars (String.length q) s) else None.
Proof.
  revert s. induction q as [|a q IH]; intros s.
  - destruct s; reflexivity.
  - destruct s as [|b s]; [reflexivity|].
    unfold occursAt. cbn [literalAtoms list_ascii_of_string map Js.matchAt
                          Js.atomMatches Js.toLowerCase Js.startsWith
                          String.length firstChars].
    fold (literalAtoms q). rewrite same_letter, IH. unfold occursAt.
    destruct (Ascii.eqb (Js.lowerChar a) (Js.lowerChar b)); [|reflexivity].
    simpl. now destruct (Js.startsWith _ _).
Qed.

Lemma length_firstChars_occurs (q s : string) :
  occursAt q s = true ->
  String.length (firstChars (String.length q) s) = String.length q.
Proof.
  unfold occursAt. revert s. induction q as [|a q IH]; intros s H.
  - destruct s; reflexivity.
  - destruct s as [|b s]; [discriminate|]. simpl in *.
    apply andb_prop in H as [_ H]. now rewrite IH.
Qed.

Lemma lower_firstChars_occurs (q s : string) :
  occursAt q s = true ->
  Js.toLowerCase (firstChars (String.length q) s) = Js.toLowerCase q.
Proof.
  unfold occursAt. revert s. induction q as [|a q IH]; intros s H.
  - destruct s; reflexivity.
  - destruct s as [|b s]; [discriminate|]. simpl in *.
    apply andb_prop in H as [Hc H]. apply Ascii.eqb_eq in Hc.
    now rewrite IH, Hc.
Qed.

(** For a literal query the split of the regular expression is the split on
    the occurrences of the query. *)
Lemma splitFrom_literal (q : string) :
  Js.truthy q = true ->
  forall rest k seg,
    Js.splitFrom (literalAtoms q) k seg rest
    = map snd (occurrencesFrom q k seg rest).
Proof.
  intros Hq. induction rest as [|c rest IH]; intros k seg; [reflexivity|].
  destruct k as [|k]; [|apply IH].
  cbn [Js.splitFrom occurrencesFrom]. rewrite matchAt_literal.
  destruct (occursAt q (String c rest)) eqn:Hocc.
  - rewrite (length_firstChars_occurs _ _ Hocc).
    destruct q as [|a q]; [discriminate|].
    cbn [String.length map snd].
    replace (S (String.length q) - 1) with (String.length q) by lia.
    now rewrite IH.
  - apply IH.
Qed.

Lemma split_literal (q text : string) :
  Js.truthy q = true ->
  Js.truthy text = true ->
  Js.split (literalAtoms q) text = map snd (occurrences q text).
Proof.
  intros Hq Ht. destruct text; [discriminate|].
  apply splitFrom_literal, Hq.
Qed.

Lemma balanced_no_paren (q : string) (d : nat) :
  Js.anyChar Js.isSyntaxChar q = false ->
  Js.balanced (S d) (q +++ ")") = Js.balanced d EmptyString.
Proof.
  induction q as [|c q IH]; intros H; [reflexivity|].
  simpl in H. apply orb_false_elim in H as [Hc Hq].
  cbn [String.append Js.balanced].
  unfold Js.isSyntaxChar in Hc. apply orb_false_elim in Hc as [_ Hc].
  cbn in Hc. rewrite !orb_false_r in Hc.
  apply orb_false_elim in Hc as [_ Hc]. apply orb_false_elim in Hc as [Ho Hc'].
  rewrite Ho, Hc'. now apply IH.
Qed.

Lemma groupBody_literal (q : string) :
  Js.anyChar Js.isSyntaxChar q = false ->
  Js.groupBody (q +++ ")") = Some (literalAtoms q).
Proof.
  induction q as [|c q IH]; intros H; [reflexivity|].
  simpl in H. apply orb_false_elim in H as [Hc Hq].
  cbn [String.append Js.groupBody].
  unfold Js.isSyntaxChar in Hc. apply orb_false_elim in Hc as [_ Hc].
  cbn in Hc. rewrite !orb_false_r in Hc.
  apply orb_false_elim in Hc as [Hd Hc]. apply orb_false_elim in Hc as [Ho Hc'].
  rewrite Ho, Hc', Hd, (IH Hq). reflexivity.
Qed.

(** A literal query between parentheses compiles, to the group of its
    characters. *)
Lemma newRegExp_literal (q : string) :
  literalQuery q = true ->
  Js.newRegExp ("(" +++ q +++ ")") = Js.Compiled (literalAtoms q).
Proof.
  unfold literalQuery. intros H. apply negb_true_iff in H.
  assert (Hother : Js.anyChar Js.isOtherSyntax q = false).
  { clear -H. induction q as [|c q IH]; [reflexivity|].
    simpl in *. apply orb_false_elim in H as [Hc Hq].
    unfold Js.isSyntaxChar in Hc. apply orb_false_elim in Hc as [Hc _].
    now rewrite Hc, IH. }
  unfold Js.newRegExp.
  cbn [String.append Js.anyChar].
  rewrite anyChar_append, Hother.
  cbn [Js.anyChar orb Js.balanced Ascii.eqb].
  replace (Js.isOtherSyntax "(") with false by reflexivity.
  replace (Js.isOtherSyntax ")") with false by reflexivity.
  cbn [orb]. replace (Ascii.eqb "(" "(") with true by reflexivity.
  rewrite (balanced_no_paren q 0 H). cbn [Js.balanced Nat.eqb negb].
  now rewrite groupBody_literal.
Qed.

(** ** The pieces of a plain text *)

Lemma plainText_append (a b : string) :
  plainText (a +++ b) = plainText a && plainText b.
Proof. unfold plainText. now rewrite anyChar_append, negb_orb. Qed.

Lemma plainText_firstChars (n : nat) (s : string) :
  plainText s = true -> plainText (firstChars n s) = true.
Proof.
  unfold plainText. revert s. induction n as [|n IH]; intros s H.
  - destruct s; reflexivity.
  - destruct s as [|c s]; [reflexivity|]. simpl in *.
    rewrite negb_orb in *. apply andb_prop in H as [Hc Hs].
    now rewrite Hc, IH.
Qed.

Lemma lower_prefix_occurs (q seg rest : string) :
  Js.toLowerCase seg = Js.toLowerCase q -> occursAt q (seg +++ rest) = true.
Proof.
  intros H. unfold occursAt. rewrite toLowerCase_append, H.
  apply startsWith_append.
Qed.

(** No plain piece equals the query, every occurrence does, and all of them
    are plain when the text is.  A plain piece that is not empty starts
    where no occurrence starts, which is why it cannot equal the query. *)
Lemma occurrences_pieces (q : string) :
  Js.truthy q = true ->
  forall rest k seg,
    plainText seg = true ->
    plainText rest = true ->
    (seg = EmptyString \/ (k = 0 /\ occursAt q (seg +++ rest) = false)) ->
    pieces q (occurrencesFrom q k seg rest).
Proof.
  intros Hq.
  assert (Hne : Js.toLowerCase EmptyString <> Js.toLowerCase q).
  { destruct q; [discriminate|]. simpl. discriminate. }
  assert (Hseg : forall seg rest k,
             seg = EmptyString
             \/ (k = 0 /\ occursAt q (seg +++ rest) = false) ->
             Js.toLowerCase seg <> Js.toLowerCase q).
  { intros seg rest k [->|[_ Hno]]; [exact Hne|].
    intros Heq. rewrite (lower_prefix_occurs _ _ _ Heq) in Hno.
    discriminate. }
  induction rest as [|c rest IH]; intros k seg Hps Hpr Hinv.
  - simpl. apply pieces_last; [exact Hps|]. eapply Hseg; exact Hinv.
  - assert (Hpc : plainText (String c EmptyString) = true
                  /\ plainText rest = true).
    { change (String c rest) with (String c EmptyString +++ rest) in Hpr.
      rewrite plainText_append in Hpr. now apply andb_prop in Hpr. }
    destruct Hpc as [Hpc Hprest].
    destruct k as [|k]; cbn [occurrencesFrom].
    + destruct (occursAt q (String c rest)) eqn:Hocc.
      * apply pieces_more.
        -- exact Hps.
        -- eapply Hseg; exact Hinv.
        -- now apply plainText_firstChars.
        -- destruct q; [discriminate|]. reflexivity.
        -- now apply lower_firstChars_occurs.
        -- apply IH; [reflexivity|exact Hprest|now left].
      * apply IH; [|exact Hprest|].
        -- now rewrite plainText_append, Hps.
        -- right. split; [reflexivity|].
           rewrite append_assoc. simpl.
           destruct Hinv as [->|[_ Hno]]; [exact Hocc|exact Hno].
    + destruct Hinv as [->|[Hk _]]; [|discriminate].
      apply IH; [reflexivity|exact Hprest|now left].
Qed.

(** The pieces put together again are the text. *)
Lemma join_occurrencesFrom (q : string) :
  Js.truthy q = true ->
  forall rest k seg,
    Js.join (map snd (occurrencesFrom q k seg rest))
    = seg +++ dropChars k rest.
Proof.
  intros Hq. induction rest as [|c rest IH]; intros k seg.
  - destruct k; reflexivity.
  - destruct k as [|k]; cbn [occurrencesFrom dropChars]; [|apply IH].
    destruct (occursAt q (String c rest)).
    + destruct q as [|a q]; [discriminate|].
      cbn [map snd Js.join String.length firstChars].
      replace (S (String.length q) - 1) with (String.length q) by lia.
      rewrite IH. cbn [String.append]. now rewrite firstChars_dropChars.
    + rewrite IH. cbn [dropChars]. now rewrite append_assoc.
Qed.

Lemma join_occurrences (q t : string) :
  Js.truthy q = true -> Js.join (map snd (occurrences q t)) = t.
Proof.
  intros Hq. unfold occurrences. now rewrite join_occurrencesFrom.
Qed.

(** ** Parsing the markup the highlighter writes *)

Lemma feed_append (a c : string) (b : Html.builder) :
  Html.feed b (a +++ c)
  = match Html.feed b a with
    | Some b' => Html.feed b' c
    | None => None
    end.
Proof.
  revert b. induction a as [|x a IH]; intros b; [reflexivity|].
  simpl. destruct (Html.step b x); [apply IH|reflexivity].
Qed.

(** Plain text is collected as it stands. *)
Lemma feed_text (s r : string) (rw : list Html.node)
      (en : list (string * list Html.node)) :
  plainText s = true ->
  Html.feed (Html.mkBuilder Html.Data r rw en) s
  = Some (Html.mkBuilder Html.Data (r +++ s) rw en).
Proof.
  revert r. induction s as [|c s IH]; intros r H.
  - simpl. now rewrite append_empty.
  - unfold plainText in H. simpl in H. rewrite negb_orb in H.
    apply andb_prop in H as [Hc Hs].
    unfold isMarkupChar in Hc. rewrite !negb_orb in Hc.
    apply andb_prop in Hc as [Hc Hn]. apply andb_prop in Hc as [Hlt Hamp].
    apply negb_true_iff in Hlt, Hamp, Hn.
    cbn [Html.feed Html.step Html.state]. unfold Html.data.
    rewrite Hlt, Hamp, Hn. unfold Html.emit.
    cbn [Html.run Html.row Html.enclosing].
    rewrite IH by exact Hs. now rewrite append_assoc.
Qed.

Lemma feed_class (s v r : string) (rw : list Html.node)
      (en : list (string * list Html.node)) :
  plainClass s = true ->
  Html.feed (Html.mkBuilder (Html.ClassValue v) r rw en) s
  = Some (Html.mkBuilder (Html.ClassValue (v +++ s)) r rw en).
Proof.
  revert v. induction s as [|c s IH]; intros v H.
  - simpl. now rewrite append_empty.
  - unfold plainClass in H. simpl in H. rewrite negb_orb in H.
    apply andb_prop in H as [Hc Hs].
    unfold isClassBreaker in Hc. rewrite !negb_orb in Hc.
    apply andb_prop in Hc as [Hc Hn]. apply andb_prop in Hc as [Hq Hamp].
    apply negb_true_iff in Hq, Hamp, Hn.
    cbn [Html.feed Html.step Html.state].
    rewrite Hq, Hamp, Hn. cbn [orb]. unfold Html.withState.
    cbn [Html.run Html.row Html.enclosing].
    rewrite IH by exact Hs. now rewrite append_assoc.
Qed.

(** One marker around a plain part: a span element with the marker class
    and the part as its text, added after what was collected so far. *)
Lemma feed_marker (color part r : string) (rw : list Html.node)
      (en : list (string * list Html.node)) :
  plainClass (markerClass color) = true ->
  plainText part = true ->
  Html.feed (Html.mkBuilder Html.Data r rw en) (highlightMarkup color part)
  = Some (Html.mkBuilder Html.Data EmptyString
            (Html.span (markerClass color) (textNodes part)
               :: Html.flush (Html.mkBuilder Html.Data r rw en))
            en).
Proof.
  intros Hcls Hpart. unfold highlightMarkup.
  change ("<span class=" +++ String Js.dquote
            (color +++ " text-text-white"
               +++ String Js.dquote (">" +++ part +++ "</span>")))
    with (("<span class=" +++ String Js.dquote EmptyString)
            +++ (color +++ " text-text-white"
                   +++ String Js.dquote (">" +++ part +++ "</span>"))).
  rewrite feed_append.
  replace (Html.feed (Html.mkBuilder Html.Data r rw en)
                     ("<span class=" +++ String Js.dquote EmptyString))
    with (Some (Html.mkBuilder (Html.ClassValue EmptyString) r rw en))
    by reflexivity.
  rewrite <- append_assoc. fold (markerClass color).
  rewrite feed_append, feed_class by exact Hcls.
  cbn [String.append].
  change (String Js.dquote (String ">" (part +++ "</span>")))
    with ((String Js.dquote (String ">" EmptyString))
            +++ (part +++ "</span>")).
  rewrite feed_append.
  replace (Html.feed
             (Html.mkBuilder (Html.ClassValue (markerClass color)) r rw en)
             (String Js.dquote (String ">" EmptyString)))
    with (Some (Html.mkBuilder Html.Data EmptyString []
                  ((markerClass color,
                    Html.flush (Html.mkBuilder Html.Data r rw en)) :: en)))
    by reflexivity.
  rewrite feed_append, feed_text by exact Hpart.
  cbn [String.append]. unfold textNodes.
  destruct (Js.truthy part) eqn:Hp; cbn; unfold Html.flush; cbn;
    rewrite Hp; reflexivity.
Qed.

Lemma highlightPart_piece (p : InfiniteScrollProps) (s : string) :
  highlightPart p s
  = if String.eqb (Js.toLowerCase s) (Js.toLowerCase (searchQuery p))
    then highlightMarkup (searchedMessageColor p) s else s.
Proof. reflexivity. Qed.

Lemma feed_pieces (p : InfiniteScrollProps) (l : list (bool * string)) :
  pieces (searchQuery p) l ->
  plainClass (markerClass (searchedMessageColor p)) = true ->
  forall rw,
  exists b',
    Html.feed (Html.mkBuilder Html.Data EmptyString rw [])
              (Js.join (map (highlightPart p) (map snd l))) = Some b'
    /\ Html.state b' = Html.Data
    /\ Html.enclosing b' = []
    /\ rev (Html.flush b')
       = rev rw ++ flat_map (pieceNodes (searchedMessageColor p)) l.
Proof.
  intros Hl Hcls. induction Hl as [s Hs Hne|s m l Hs Hne Hm Htm Heq Hl IH];
    intros rw.
  - cbn [map snd Js.join]. rewrite highlightPart_piece.
    apply String.eqb_neq in Hne. rewrite Hne, append_empty.
    rewrite feed_text by exact Hs.
    eexists. split; [reflexivity|]. cbn. repeat split.
    unfold Html.flush, pieceNodes, textNodes. cbn.
    destruct (Js.truthy s); cbn; rewrite ?app_nil_r; reflexivity.
  - cbn [map snd Js.join]. rewrite !highlightPart_piece.
    apply String.eqb_neq in Hne. rewrite Hne.
    apply String.eqb_eq in Heq. rewrite Heq.
    rewrite feed_append, feed_text by exact Hs.
    rewrite feed_append, feed_marker by assumption.
    destruct (IH (Html.span (markerClass (searchedMessageColor p))
                            (textNodes m)
                    :: Html.flush (Html.mkBuilder Html.Data
                                     (EmptyString +++ s) rw [])))
      as [b' [Hfeed [Hst [Hen Hrev]]]].
    exists b'. split; [exact Hfeed|]. split; [exact Hst|].
    split; [exact Hen|].
    rewrite Hrev. cbn [rev flat_map pieceNodes fst snd].
    unfold Html.flush, textNodes. cbn [Html.run Html.row String.append].
    rewrite Htm. destruct (Js.truthy s); cbn [rev app];
      rewrite <- ?app_assoc; reflexivity.
Qed.

(** What the highlighter writes for the pieces of a plain text parses to
    the nodes the specification asks for. *)
Lemma parseFragment_pieces (p : InfiniteScrollProps)
      (l : list (bool * string)) :
  pieces (searchQuery p) l ->
  plainClass (markerClass (searchedMessageColor p)) = true ->
  Html.parseFragment (Js.join (map (highlightPart p) (map snd l)))
  = Some (flat_map (pieceNodes (searchedMessageColor p)) l).
Proof.
  intros Hl Hcls.
  destruct (feed_pieces p l Hl Hcls []) as [b' [Hfeed [Hst [Hen Hrev]]]].
  unfold Html.parseFragment, Html.start. rewrite Hfeed.
  unfold Html.finish. rewrite Hst, Hen. cbn [Html.closeAll].
  now rewrite Hrev.
Qed.

Lemma parseFragment_text (s : string) :
  plainText s = true ->
  Html.parseFragment s = Some (textNodes s).
Proof.
  intros Hs. unfold Html.parseFragment, Html.start.
  rewrite feed_text by exact Hs. unfold Html.finish, Html.flush, textNodes.
  cbn. now destruct (Js.truthy s).
Qed.

Lemma textContent_app (a b : list Html.node) :
  Html.textContent (a ++ b) = Html.textContent a +++ Html.textContent b.
Proof.
  unfold Html.textContent. induction a as [|n a IH]; [reflexivity|].
  cbn [app map Js.join]. now rewrite IH, append_assoc.
Qed.

Lemma textContent_textNodes (s : string) :
  Html.textContent (textNodes s) = s.
Proof.
  unfold textNodes. destruct s; [reflexivity|]. cbn. now rewrite append_empty.
Qed.

Lemma textContent_pieces (color : string) (l : list (bool * string)) :
  Html.textContent (flat_map (pieceNodes color) l) = Js.join (map snd l).
Proof.
  induction l as [|[b s] l IH]; [reflexivity|].
  cbn [flat_map map snd Js.join]. rewrite textContent_app, IH. f_equal.
  destruct b; [|apply textContent_textNodes].
  cbn. now rewrite !append_empty.
Qed.

(** Highlighting changes no character: the text of the expected nodes is
    the text that was split. *)
Lemma textContent_expectedNodes (color q t : string) :
  Js.truthy q = true ->
  Html.textContent (expectedNodes color q t) = t.
Proof.
  intros Hq. unfold expectedNodes. rewrite textContent_pieces.
  now apply join_occurrences.
Qed.

(** ** Replacing the content of a message *)

Lemma firstWith_replaceContent (v : string) (i : nat) (kids : list Html.node)
      (l : list Item) :
  firstWith v (replaceContent i kids l) = firstWith v l.
Proof.
  revert i. induction l as [|it l IH]; intros i; [now destruct i|].
  destruct i as [|i]; cbn [replaceContent firstWith messageId]; [reflexivity|].
  now rewrite IH.
Qed.

Lemma nth_error_replaceContent (i : nat) (kids : list Html.node)
      (l : list Item) (it : Item) :
  nth_error l i = Some it ->
  nth_error (replaceContent i kids l) i = Some (mkItem (messageId it) kids).
Proof.
  revert i. induction l as [|x l IH]; intros [|i] H; try discriminate.
  - now inversion H.
  - simpl in *. now apply IH.
Qed.

Lemma replaceContent_twice (i : nat) (k1 k2 : list Html.node)
      (l : list Item) :
  replaceContent i k2 (replaceContent i k1 l) = replaceContent i k2 l.
Proof.
  revert i. induction l as [|x l IH]; intros [|i]; simpl; try reflexivity.
  now rewrite IH.
Qed.

Lemma textAt_pageWithContent (i : nat) (kids : list Html.node) (w : World) :
  (exists it, nth_error (items (element w)) i = Some it) ->
  textAt i (pageWithContent i kids w) = Html.textContent kids.
Proof.
  intros [it Hit]. unfold textAt, pageWithContent. cbn.
  now rewrite (nth_error_replaceContent _ _ _ _ Hit).
Qed.

Lemma pageWithContent_twice (i : nat) (k1 k2 : list Html.node) (w : World) :
  pageWithContent i k2 (pageWithContent i k1 w) = pageWithContent i k2 w.
Proof.
  unfold pageWithContent, withElement, withContent. cbn.
  now rewrite replaceContent_twice.
Qed.

(** ** Search highlighter *)

(** C9.  With an empty query, an empty list of matched ids, or the container
    unmounted, the effect ends normally at its guard: the page is untouched
    and no cleanup is registered, so the later cleanup step touches nothing
    either.  The empty query does so whatever ids are given. *)
Theorem highlightEffect_no_op :
  forall (p : InfiniteScrollProps) (w : World),
    searchQuery p = EmptyString \/ searchedMessageIds p = []
    \/ mounted w = false ->
    highlightEffect p w = Ok None w
    /\ highlightThenCleanup p w = Ok tt w.
Proof.
  intros p w Hcase.
  assert (Hguard : negb (Js.truthy (searchQuery p)) || negb (mounted w)
                   || Nat.eqb (List.length (searchedMessageIds p)) 0 = true).
  { destruct Hcase as [Hq|[Hids|Hm]].
    - now rewrite Hq.
    - rewrite Hids. simpl. now rewrite !orb_true_r.
    - rewrite Hm. simpl. now rewrite orb_true_r. }
  assert (Heff : highlightEffect p w = Ok None w).
  { unfold highlightEffect, bind, gets. now rewrite Hguard. }
  split; [exact Heff|].
  unfold highlightThenCleanup, bind. now rewrite Heff.
Qed.

Lemma highlightEffect_no_op_witness :
  highlightEffect (sampleProps Up None EmptyString ["m1"%string; "m2"%string])
                  (samplePage 0 1000 0 [mkItem "m1" [Html.Text "hello world"]])
  = Ok None (samplePage 0 1000 0 [mkItem "m1" [Html.Text "hello world"]])
  /\ highlightThenCleanup
       (sampleProps Up None EmptyString ["m1"%string; "m2"%string])
       (samplePage 0 1000 0 [mkItem "m1" [Html.Text "hello world"]])
     = Ok tt (samplePage 0 1000 0 [mkItem "m1" [Html.Text "hello world"]]).
Proof.
  apply (highlightEffect_no_op
           (sampleProps Up None EmptyString ["m1"%string; "m2"%string])
           (samplePage 0 1000 0 [mkItem "m1" [Html.Text "hello world"]])).
  left; reflexivity.
Defined.

(** The highlighter on well-formed input.  For a plain id that is found,
    with a non-empty plain text, a non-empty literal query and a plain
    marker class: when the text holds the query, the content of the message
    becomes the nodes the specification asks for, every occurrence in a
    marker and the rest as text in its own casing; otherwise the page is
    left alone. *)
Lemma highlightMessage_plain (p : InfiniteScrollProps) (w : World)
      (id : string) (i : nat) :
  plainId id = true ->
  firstWith id (items (element w)) = Some i ->
  Js.truthy (textAt i w) = true ->
  plainText (textAt i w) = true ->
  Js.truthy (searchQuery p) = true ->
  literalQuery (searchQuery p) = true ->
  plainClass (markerClass (searchedMessageColor p)) = true ->
  highlightMessage p id w
  = Ok tt (if Js.includes (Js.toLowerCase (textAt i w))
                          (Js.toLowerCase (searchQuery p))
           then pageWithContent i
                  (expectedNodes (searchedMessageColor p) (searchQuery p)
                                 (textAt i w)) w
           else w).
Proof.
  intros Hid Hfound Ht Hpt Hq Hlit Hcls.
  unfold highlightMessage, bind.
  rewrite querySelector_plain by exact Hid. rewrite Hfound.
  unfold textContentAt, gets. fold (textAt i w). rewrite Ht.
  destruct (Js.includes _ _); [|reflexivity].
  unfold newRegExp. rewrite newRegExp_literal by exact Hlit.
  unfold ret. rewrite split_literal by assumption.
  unfold setInnerHTML.
  rewrite parseFragment_pieces.
  - reflexivity.
  - apply occurrences_pieces; try assumption; [reflexivity|now left].
  - exact Hcls.
Qed.

Lemma highlightMessage_plain_witness :
  highlightMessage (sampleProps Up None "World" ["m1"%string]) "m1"
                   (samplePage 0 1000 0 [mkItem "m1" [Html.Text "hello world"]])
  = Ok tt (samplePage 0 1000 0
             [mkItem "m1"
                [Html.Text "hello ";
                 Html.span "bg-border-surface-accent-red-orange text-text-white"
                           [Html.Text "world"]]]).
Proof.
  apply (highlightMessage_plain
           (sampleProps Up None "World" ["m1"%string])
           (samplePage 0 1000 0 [mkItem "m1" [Html.Text "hello world"]])
           "m1" 0); reflexivity.
Defined.

(** The cleanup on well-formed input: the message is left with one text
    node that holds its text. *)
Lemma restoreMessage_plain (w : World) (id : string) (i : nat) :
  plainId id = true ->
  firstWith id (items (element w)) = Some i ->
  Js.truthy (textAt i w) = true ->
  plainText (textAt i w) = true ->
  restoreMessage id w = Ok tt (pageWithContent i [Html.Text (textAt i w)] w).
Proof.
  intros Hid Hfound Ht Hpt.
  unfold restoreMessage, bind.
  rewrite querySelector_plain by exact Hid. rewrite Hfound.
  unfold textContentAt, gets. fold (textAt i w). rewrite Ht.
  unfold setInnerHTML. rewrite parseFragment_text by exact Hpt.
  unfold textNodes. now rewrite Ht.
Qed.

(** The round trip on well-formed input, for one matched message: effect
    and cleanup end normally and leave the message with exactly its original
    text, as one text node; nothing else on the page changes. *)
Lemma highlightThenCleanup_plain (p : InfiniteScrollProps) (w : World)
      (id : string) (i : nat) :
  searchedMessageIds p = [id] ->
  mounted w = true ->
  plainId id = true ->
  firstWith id (items (element w)) = Some i ->
  Js.truthy (textAt i w) = true ->
  plainText (textAt i w) = true ->
  Js.truthy (searchQuery p) = true ->
  literalQuery (searchQuery p) = true ->
  plainClass (markerClass (searchedMessageColor p)) = true ->
  highlightThenCleanup p w
  = Ok tt (pageWithContent i [Html.Text (textAt i w)] w).
Proof.
  intros Hids Hm Hid Hfound Ht Hpt Hq Hlit Hcls.
  destruct (firstWith_nth_error _ _ _ Hfound) as [it [Hit _]].
  unfold highlightThenCleanup, highlightEffect, bind, gets.
  rewrite Hids, Hq, Hm. cbn [negb orb List.length Nat.eqb forEach].
  unfold bind. rewrite (highlightMessage_plain p w id i) by assumption.
  unfold ret, highlightCleanup. cbn [forEach]. unfold bind.
  destruct (Js.includes _ _).
  - rewrite (restoreMessage_plain _ id i); try assumption.
    + rewrite textAt_pageWithContent by (now exists it).
      rewrite textContent_expectedNodes by exact Hq.
      unfold ret. now rewrite pageWithContent_twice.
    + unfold pageWithContent. cbn. now rewrite firstWith_replaceContent.
    + rewrite textAt_pageWithContent by (now exists it).
      now rewrite textContent_expectedNodes.
    + rewrite textAt_pageWithContent by (now exists it).
      now rewrite textContent_expectedNodes.
  - now rewrite (restoreMessage_plain _ id i).
Qed.

Lemma highlightThenCleanup_plain_witness :
  highlightThenCleanup
    (sampleProps Up None "World" ["m1"%string])
    (samplePage 0 1000 0
       [mkItem "m0" [Html.Text "first"];
        mkItem "m1" [Html.Element "b" [] [Html.Text "hello"];
                     Html.Text " world"]])
  = Ok tt (samplePage 0 1000 0
             [mkItem "m0" [Html.Text "first"];
              mkItem "m1" [Html.Text "hello world"]]).
Proof.
  apply (highlightThenCleanup_plain
           (sampleProps Up None "World" ["m1"%string])
           (samplePage 0 1000 0
              [mkItem "m0" [Html.Text "first"];
               mkItem "m1" [Html.Element "b" [] [Html.Text "hello"];
                            Html.Text " world"]])
           "m1" 1); reflexivity.
Defined.

(** The round trip of the specification: hello world with the query World.
    The effect wraps world, in the casing of the text, and leaves hello and
    the blank as text; the cleanup puts back the one text node. *)
Example highlight_hello_world :
  let p := sampleProps Up None "World" ["m1"%string] in
  let w := samplePage 0 1000 0 [mkItem "m1" [Html.Text "hello world"]] in
  contentAfter ((highlightEffect p ;;; ret tt) w) 0
  = Some [Html.Text "hello ";
          Html.span "bg-border-surface-accent-red-orange text-text-white"
                    [Html.Text "world"]]
  /\ contentAfter (highlightThenCleanup p w) 0
     = Some [Html.Text "hello world"].
Proof. split; reflexivity. Qed.

(** C7.  The round trip fails on a text that holds a character reference.
    The message shows the five characters of the reference to the ampersand
    and the query is amp.  The effect highlights amp and still shows the
    five characters; the cleanup assigns that text to innerHTML, where it is
    read as markup, and the message is left showing a lone ampersand. *)
Theorem highlight_cleanup_loses_reference_text :
  let p := sampleProps Up None "amp" ["m1"%string] in
  let w := samplePage 0 1000 0 [mkItem "m1" [Html.Text "&amp;"]] in
  option_map Html.textContent
             (contentAfter ((highlightEffect p ;;; ret tt) w) 0)
  = Some "&amp;"%string
  /\ contentAfter (highlightThenCleanup p w) 0 = Some [Html.Text "&"]
  /\ contentAfter (highlightThenCleanup p w) 0 <> Some [Html.Text "&amp;"].
Proof.
  repeat split; try reflexivity. cbv. discriminate.
Qed.

(** C8.  The highlighter fails on a query with a character that the regular
    expression reads as syntax.  The text aa. holds the query a. once, at
    its second character, yet the pattern (a.) takes the two letters first:
    no piece equals the query, nothing is wrapped, and the message keeps
    one plain text node instead of the marker the specification asks for.
    A lone opening parenthesis as query does not even compile: the effect
    throws a SyntaxError. *)
Theorem highlight_misses_query_with_dot :
  let p := sampleProps Up None "a." ["m1"%string] in
  let w := samplePage 0 1000 0 [mkItem "m1" [Html.Text "aa."]] in
  Js.includes (Js.toLowerCase "aa.") (Js.toLowerCase (searchQuery p)) = true
  /\ contentAfter ((highlightEffect p ;;; ret tt) w) 0 = Some [Html.Text "aa."]
  /\ expectedNodes (searchedMessageColor p) (searchQuery p) "aa."
     = [Html.Text "a";
        Html.span "bg-border-surface-accent-red-orange text-text-white"
                  [Html.Text "a."]]
  /\ exists w',
       highlightEffect (sampleProps Up None "(" ["m1"%string])
                       (samplePage 0 1000 0 [mkItem "m1" [Html.Text "f(x)"]])
       = Thrown SyntaxError w'.
Proof.
  repeat split; try reflexivity. eexists. reflexivity.
Qed.

(** ** The loading flag *)

Lemma silent_ret {A : Type} (a : A) : silent (ret a).
Proof. intros w. now split. Qed.

Lemma silent_bind {A B : Type} (m : M A) (k : A -> M B) :
  silent m -> (forall a, silent (k a)) -> silent (bind m k).
Proof.
  intros Hm Hk w. unfold bind. specialize (Hm w).
  destruct (m w) as [a v|e v|]; [|exact Hm|exact I].
  specialize (Hk a v). destruct Hm as [Ht Hc].
  destruct (k a v) as [b u|e u|]; [| |exact I];
    destruct Hk as [Ht' Hc']; split; congruence.
Qed.

Lemma silent_forEach {A : Type} (l : list A) (f : A -> M unit) :
  (forall x, silent (f x)) -> silent (forEach l f).
Proof.
  intros Hf. induction l as [|x l IH]; [apply silent_ret|].
  simpl. apply silent_bind; [apply Hf|intros _; exact IH].
Qed.

Lemma silent_gets {A : Type} (f : World -> A) : silent (gets f).
Proof. intros w. now split. Qed.

Lemma silent_querySelector (s : string) : silent (querySelector s).
Proof.
  intros w. unfold querySelector.
  destruct (Css.parse s); try exact I; now split.
Qed.

Lemma silent_setInnerHTML (i : nat) (s : string) : silent (setInnerHTML i s).
Proof.
  intros w. unfold setInnerHTML. destruct (Html.parseFragment s); [|exact I].
  now split.
Qed.

Lemma silent_newRegExp (s : string) : silent (newRegExp s).
Proof.
  intros w. unfold newRegExp.
  destruct (Js.newRegExp s); try exact I; now split.
Qed.

Lemma silent_highlightMessage (p : InfiniteScrollProps) (id : string) :
  silent (highlightMessage p id).
Proof.
  unfold highlightMessage. apply silent_bind; [apply silent_querySelector|].
  intros [i|]; [|apply silent_ret].
  apply silent_bind; [apply silent_gets|]. intros t.
  destruct (Js.truthy t); [|apply silent_ret].
  destruct (Js.includes _ _); [|apply silent_ret].
  apply silent_bind; [apply silent_newRegExp|]. intros re.
  apply silent_setInnerHTML.
Qed.

Lemma silent_restoreMessage (id : string) : silent (restoreMessage id).
Proof.
  unfold restoreMessage. apply silent_bind; [apply silent_querySelector|].
  intros [i|]; [|apply silent_ret].
  apply silent_bind; [apply silent_gets|]. intros t.
  destruct (Js.truthy t); [apply silent_setInnerHTML|apply silent_ret].
Qed.

(** The highlighter and its cleanup never call the caller and never
    register a timeout. *)
Lemma silent_highlightCleanup (ids : list string) :
  silent (highlightCleanup ids).
Proof. apply silent_forEach, silent_restoreMessage. Qed.

Lemma silent_highlightEffect (p : InfiniteScrollProps) :
  silent (highlightEffect p).
Proof.
  unfold highlightEffect. apply silent_bind; [apply silent_gets|]. intros m.
  destruct (_ || _); [apply silent_ret|].
  apply silent_bind; [|intros _; apply silent_ret].
  apply silent_forEach. intros id. apply silent_highlightMessage.
Qed.

(** The visibility callback always ends normally, registers no timeout, and
    the only calls it adds are the two load callbacks. *)
Lemma observerCallback_calls (p : InfiniteScrollProps)
      (entries : list IntersectionObserverEntry) (w : World) :
  exists w',
    observerCallback p entries w = Ok tt w'
    /\ timers w' = timers w
    /\ forall c, In c (calls w') ->
                 In c (calls w) \/ c = LoadMoreTop \/ c = LoadMoreBottom.
Proof.
  unfold observerCallback. revert w.
  induction entries as [|e es IH]; intros w.
  - exists w. cbn. auto.
  - cbn [forEach]. unfold bind at 1. unfold bind at 1. unfold gets at 1.
    set (step := if isIntersecting e && negb (isLoading p) && mounted w
                 then _ else _).
    assert (Hstep : exists v,
               step w = Ok tt v /\ timers v = timers w
               /\ forall c, In c (calls v) ->
                            In c (calls w) \/ c = LoadMoreTop
                            \/ c = LoadMoreBottom).
    { subst step. destruct (_ && _ && _).
      - destruct (_ && _).
        + eexists. split; [reflexivity|]. cbn. split; [reflexivity|].
          intros c Hc. apply in_app_or in Hc as [Hc|[<-|[]]]; auto.
        + destruct (_ && _).
          * eexists. split; [reflexivity|]. cbn. split; [reflexivity|].
            intros c Hc. apply in_app_or in Hc as [Hc|[<-|[]]]; auto.
          * exists w. cbn. auto.
      - exists w. cbn. auto. }
    destruct Hstep as [v [Hv [Ht Hc]]]. rewrite Hv.
    destruct (IH v) as [u [Hu [Ht' Hc']]].
    exists u. split; [exact Hu|]. split; [congruence|].
    intros c Hin. destruct (Hc' c Hin) as [H|H]; [|now right].
    apply Hc, H.
Qed.

(** C10.  The component reaches setIsLoading only through the timeout of
    the anchor jump.  A size change with direction up or down, or with the
    container unmounted, ends normally with no call made and no timeout
    registered.  Neither does any other event call or schedule it: a
    visibility batch registers no timeout and adds no call to setIsLoading,
    and the highlighter and its cleanup make no call and register no timeout
    at all. *)
Theorem setIsLoading_only_on_settle_path :
  forall (ly : Layout) (p : InfiniteScrollProps) (w : World),
    (direction p = Up \/ direction p = Down \/ mounted w = false ->
     exists w',
       resizeCallback ly p w = Ok tt w'
       /\ timers w' = timers w
       /\ calls w' = calls w)
    /\ (forall entries,
          exists w',
            observerCallback p entries w = Ok tt w'
            /\ timers w' = timers w
            /\ forall v, In (SetIsLoading v) (calls w') ->
                         In (SetIsLoading v) (calls w))
    /\ silent (highlightEffect p)
    /\ silent (highlightCleanup (searchedMessageIds p)).
Proof.
  intros ly p w. split; [apply resize_quiet|]. split.
  - intros entries.
    destruct (observerCallback_calls p entries w) as [w' [Hrun [Ht Hc]]].
    exists w'. split; [exact Hrun|]. split; [exact Ht|].
    intros v Hin. destruct (Hc _ Hin) as [H|[H|H]];
      [exact H|discriminate|discriminate].
  - split; [apply silent_highlightEffect|apply silent_highlightCleanup].
Qed.

Lemma setIsLoading_only_on_settle_path_witness :
  exists w',
    resizeCallback flatLayout (sampleProps Down None EmptyString [])
                   (samplePage 1000 1300 0 []) = Ok tt w'
    /\ timers w' = []
    /\ calls w' = [].
Proof.
  apply (proj1 (setIsLoading_only_on_settle_path
                  flatLayout (sampleProps Down None EmptyString [])
                  (samplePage 1000 1300 0 []))).
  right; left; reflexivity.
Defined.

(** ** The component on well-formed input *)







(** X4.  With the container mounted, in the up and down branches and, for a
    plain cursor, in the middle branch whether or not the cursor is found,
    a size change ends normally and the snapshot it leaves is the extent
    read in the event. *)
Theorem resize_plain_cursor_records_extent :
  forall (ly : Layout) (p : InfiniteScrollProps) (w : World),
    mounted w = true ->
    direction p <> Middle
    \/ plainId (Js.stringOfNullable (cursor p)) = true ->
    exists w',
      resizeCallback ly p w = Ok tt w'
      /\ prevScrollHeightRef w' = scrollHeight (element w).
Proof.
  intros ly p w Hm Hsafe.
  destruct (resize_returns ly p w Hsafe) as [w' Hrun].
  exists w'. split; [exact Hrun|].
  now destruct (resize_records_extent ly p w w' Hm Hrun).
Qed.

Lemma resize_plain_cursor_records_extent_witness :
  exists w',
    resizeCallback flatLayout
                   (sampleProps Middle (Some "m42"%string) EmptyString [])
                   (samplePage 1000 1400 0 [mkItem "m42" []]) = Ok tt w'
    /\ prevScrollHeightRef w' = 1400%Z.
Proof.
  apply (resize_plain_cursor_records_extent
           flatLayout (sampleProps Middle (Some "m42"%string) EmptyString [])
           (samplePage 1000 1400 0 [mkItem "m42" []])).
  - reflexivity.
  - right. reflexivity.
Defined.

(** * Further properties of the code *)

(** ** The visibility callback, entry by entry *)

Lemma withCalls_same (w : World) : withCalls (calls w) w = w.
Proof. now destruct w. Qed.

Lemma observerEntry_trace (p : InfiniteScrollProps)
      (e : IntersectionObserverEntry) (w : World) :
  observerEntry p e w
  = Ok tt (withCalls
             (calls w ++ if negb (isLoading p) && mounted w
                         then requestedBy p e else [])
             w).
Proof.
  unfold observerEntry, bind, gets, requestedBy.
  destruct (isIntersecting e), (isLoading p), (mounted w) eqn:Hm;
    cbn [negb andb]; try (now rewrite app_nil_r, withCalls_same).
  destruct (_ && _); [reflexivity|].
  destruct (_ && _); [reflexivity|].
  now rewrite app_nil_r, withCalls_same.
Qed.

Lemma observerCallback_trace (p : InfiniteScrollProps)
      (entries : list IntersectionObserverEntry) (w : World) :
  observerCallback p entries w
  = Ok tt (withCalls
             (calls w ++ if negb (isLoading p) && mounted w
                         then flat_map (requestedBy p) entries else [])
             w).
Proof.
  change (observerCallback p entries) with (forEach entries (observerEntry p)).
  revert w. induction entries as [|e es IH]; intros w.
  - cbn. destruct (_ && _); now rewrite app_nil_r, withCalls_same.
  - cbn [forEach flat_map]. unfold bind. rewrite observerEntry_trace, IH.
    cbn [withCalls mounted calls element prevScrollHeightRef timers].
    unfold withCalls. cbn. destruct (_ && _).
    + now rewrite <- app_assoc.
    + now rewrite !app_nil_r.
Qed.

(** X5.  With the flag down and the container mounted, the visibility
    callback ends normally and changes nothing but the list of calls: it
    appends, in the order of the batch, one loadMoreTop for every
    intersecting entry aimed at the top sentinel while isTopFetchMore is
    set, and one loadMoreBottom for every intersecting entry aimed at the
    bottom sentinel while isBottomFetchMore is set.  Entries are not merged:
    two intersecting entries for one sentinel give two calls. *)
Theorem observerCallback_one_call_per_entry :
  forall (p : InfiniteScrollProps) (entries : list IntersectionObserverEntry)
         (w : World),
    isLoading p = false ->
    mounted w = true ->
    observerCallback p entries w
    = Ok tt (withCalls (calls w ++ flat_map (requestedBy p) entries) w).
Proof.
  intros p entries w Hl Hm. rewrite observerCallback_trace, Hl, Hm.
  reflexivity.
Qed.

Lemma observerCallback_one_call_per_entry_witness :
  observerCallback
    (mkProps false true true Up None EmptyString [] EmptyString)
    [mkEntry true "top-sentinel"; mkEntry false "bottom-sentinel";
     mkEntry true "top-sentinel"; mkEntry true "elsewhere";
     mkEntry true "bottom-sentinel"]
    (samplePage 0 1000 0 [])
  = Ok tt (withCalls ([] ++ [LoadMoreTop; LoadMoreTop; LoadMoreBottom])
                     (samplePage 0 1000 0 [])).
Proof.
  apply (observerCallback_one_call_per_entry
           (mkProps false true true Up None EmptyString [] EmptyString)
           [mkEntry true "top-sentinel"; mkEntry false "bottom-sentinel";
            mkEntry true "top-sentinel"; mkEntry true "elsewhere";
            mkEntry true "bottom-sentinel"]
           (samplePage 0 1000 0 [])); reflexivity.
Defined.

Lemma requestedBy_flags (p : InfiniteScrollProps)
      (entries : list IntersectionObserverEntry) (c : Call) :
  In c (flat_map (requestedBy p) entries) ->
  (c = LoadMoreTop /\ isTopFetchMore p = true)
  \/ (c = LoadMoreBottom /\ isBottomFetchMore p = true).
Proof.
  induction entries as [|e es IH]; [intros []|].
  cbn [flat_map]. intros H. apply in_app_or in H as [H|H]; [|now apply IH].
  revert H. unfold requestedBy. destruct (isIntersecting e); [|intros []].
  destruct (_ && _) eqn:Ht.
  - apply andb_prop in Ht as [_ Ht]. intros [<-|[]]. now left.
  - clear Ht. destruct (_ && _) eqn:Hb.
    + apply andb_prop in Hb as [_ Hb]. intros [<-|[]]. now right.
    + cbn. intros [].
Qed.

(** X6.  Whatever the batch, the visibility callback ends normally, adds
    only load callbacks, at most one per entry, and leaves the rest of the
    page alone.  It adds nothing while the container is unmounted, never a
    loadMoreTop while isTopFetchMore is false, and never a loadMoreBottom
    while isBottomFetchMore is false. *)
Theorem observerCallback_respects_flags :
  forall (p : InfiniteScrollProps) (entries : list IntersectionObserverEntry)
         (w : World),
    exists added,
      observerCallback p entries w = Ok tt (withCalls (calls w ++ added) w)
      /\ (mounted w = false -> added = [])
      /\ (isTopFetchMore p = false -> ~ In LoadMoreTop added)
      /\ (isBottomFetchMore p = false -> ~ In LoadMoreBottom added)
      /\ (forall c, In c added -> c = LoadMoreTop \/ c = LoadMoreBottom)
      /\ List.length added <= List.length entries.
Proof.
  intros p entries w. eexists. split; [apply observerCallback_trace|].
  split; [intros ->; now rewrite andb_false_r|].
  assert (Hin : forall c,
             In c (if negb (isLoading p) && mounted w
                   then flat_map (requestedBy p) entries else []) ->
             In c (flat_map (requestedBy p) entries)).
  { intros c. now destruct (_ && _). }
  repeat split.
  - intros Ht H. destruct (requestedBy_flags _ _ _ (Hin _ H)) as [[_ H']|[H' _]];
      congruence.
  - intros Hb H. destruct (requestedBy_flags _ _ _ (Hin _ H)) as [[H' _]|[_ H']];
      congruence.
  - intros c H. destruct (requestedBy_flags _ _ _ (Hin _ H)) as [[H' _]|[H' _]];
      auto.
  - destruct (_ && _); [|cbn; lia].
    clear. induction entries as [|e es IH]; [reflexivity|].
    cbn [flat_map]. rewrite length_app. cbn [List.length].
    assert (List.length (requestedBy p e) <= 1).
    { unfold requestedBy. destruct (isIntersecting e); [|cbn; lia].
      destruct (_ && _); [cbn; lia|]. destruct (_ && _); cbn; lia. }
    lia.
Qed.

Lemma resize_unmounted (ly : Layout) (p : InfiniteScrollProps) (w : World) :
  mounted w = false -> resizeCallback ly p w = Ok tt w.
Proof.
  intros Hm. unfold resizeCallback, bind, gets. now rewrite Hm.
Qed.

Lemma resize_frame (ly : Layout) (p : InfiniteScrollProps) (w : World) :
  resizeFrame w (resizeCallback ly p w).
Proof.
  unfold resizeCallback, bind, gets.
  destruct (mounted w) eqn:Hm; [|cbn; rewrite Hm; auto 6].
  destruct (direction p).
  - cbn. rewrite Hm. auto 6.
  - destruct (querySelector _ w) as [[i|] v|e v|] eqn:Hq.
    + apply querySelector_pure in Hq. subst v. cbn. rewrite Hm.
      repeat split. right. exists i. now split.
    + apply querySelector_pure in Hq. subst v. cbn. rewrite Hm. auto 6.
    + unfold querySelector in Hq. destruct (Css.parse _); now inversion Hq.
    + exact I.
  - cbn. rewrite Hm. auto 6.
Qed.

(** X7.  A size change never touches the messages, the extent or the
    mounting.  When it returns it has either made no call and registered no
    timeout, or made exactly one scrollIntoView call and registered exactly
    one timeout of 1000 ms; timeouts registered earlier are never removed.
    When the lookup throws, the page is exactly as before.  With the
    container unmounted nothing changes, the snapshot included. *)
Theorem resize_changes_only_scroll_state :
  forall (ly : Layout) (p : InfiniteScrollProps) (w : World),
    resizeFrame w (resizeCallback ly p w)
    /\ (mounted w = false -> resizeCallback ly p w = Ok tt w).
Proof.
  intros ly p w. split; [apply resize_frame|apply resize_unmounted].
Qed.

Lemma resize_keeps_mounted (ly : Layout) (p : InfiniteScrollProps)
      (w w' : World) :
  resizeCallback ly p w = Ok tt w' -> mounted w' = mounted w.
Proof.
  intros H. pose proof (resize_frame ly p w) as F. rewrite H in F.
  now destruct F as [_ [_ [F _]]].
Qed.

(** X8.  The growth is measured from the previous event.  After a size
    change that returned with the container mounted, whatever its direction,
    the next one in direction up assigns to the scroll offset its value plus
    the extent it reads minus the extent the previous event read, and in
    direction down assigns minus that difference; the container takes the
    assigned value brought into the range it can hold, and the event then
    records the new extent.  When the extent has not changed and the offset
    was inside the range, up leaves the offset alone and down sets it
    to 0. *)
Theorem resize_delta_is_growth_since_last_event :
  forall (ly1 ly2 : Layout) (p1 p2 : InfiniteScrollProps) (w w1 : World)
         (c2 : Container),
    mounted w = true ->
    resizeCallback ly1 p1 w = Ok tt w1 ->
    direction p2 <> Middle ->
    exists w3,
      resizeCallback ly2 p2 (withElement c2 w1) = Ok tt w3
      /\ prevScrollHeightRef w3 = scrollHeight c2
      /\ scrollTop (element w3)
         = clampScrollTop ly2 c2
             match direction p2 with
             | Up => (scrollTop c2
                      + (scrollHeight c2 - scrollHeight (element w)))%Z
             | _ => (- (scrollHeight c2 - scrollHeight (element w)))%Z
             end
      /\ (scrollHeight c2 = scrollHeight (element w) ->
          (minScrollTop ly2 c2 <= scrollTop c2 <= maxScrollTop ly2 c2)%Z ->
          scrollTop (element w3)
          = match direction p2 with Up => scrollTop c2 | _ => 0%Z end).
Proof.
  intros ly1 ly2 p1 p2 w w1 c2 Hm H1 Hdir.
  destruct (resize_records_extent ly1 p1 w w1 Hm H1) as [Hprev _].
  pose proof (resize_keeps_mounted ly1 p1 w w1 H1) as Hm1. rewrite Hm in Hm1.
  pose proof (scrollRange_not_empty ly2 c2) as Hzero.
  destruct (direction p2) eqn:Hd; [|congruence|].
  - rewrite (resize_up_run ly2 p2 (withElement c2 w1) Hd Hm1).
    eexists. split; [reflexivity|].
    cbn [withElement element scrollTop scrollHeight withScrollTop
         prevScrollHeightRef].
    rewrite Hprev. repeat split.
    intros He Hin. rewrite He, Z.sub_diag, Z.add_0_r.
    now apply clampScrollTop_within.
  - rewrite (resize_down_run ly2 p2 (withElement c2 w1) Hd Hm1).
    eexists. split; [reflexivity|].
    cbn [withElement element scrollTop scrollHeight withScrollTop
         prevScrollHeightRef].
    rewrite Hprev. repeat split.
    intros He _. rewrite He, Z.sub_diag.
    now apply (clampScrollTop_within ly2 c2 0).
Qed.

Lemma resize_delta_is_growth_since_last_event_witness :
  exists w3,
    resizeCallback flatLayout (sampleProps Down None EmptyString [])
      (withElement (mkContainer 1700 (-200) [])
         (mkWorld (mkContainer 1400 (-200) []) true 1400 [] []))
    = Ok tt w3
    /\ prevScrollHeightRef w3 = 1700%Z
    /\ scrollTop (element w3) = (-300)%Z.
Proof.
  destruct (resize_delta_is_growth_since_last_event
              flatLayout flatLayout (sampleProps Up None EmptyString [])
              (sampleProps Down None EmptyString [])
              (samplePage 1000 1400 (-600) [])
              (mkWorld (mkContainer 1400 (-200) []) true 1400 [] [])
              (mkContainer 1700 (-200) []))
    as [w3 [Hrun [Hprev [Htop _]]]].
  - reflexivity.
  - reflexivity.
  - discriminate.
  - exists w3. split; [exact Hrun|]. split; [exact Hprev|exact Htop].
Defined.



(** ** The highlighter over all matched ids *)






Lemma map_messageId_updateAt (f : Item -> Item) (i : nat) (l : list Item) :
  (forall x, messageId (f x) = messageId x) ->
  map messageId (updateAt i f l) = map messageId l.
Proof.
  intros Hf. revert i. induction l as [|x l IH]; intros [|i]; cbn;
    try reflexivity.
  - now rewrite Hf.
  - now rewrite IH.
Qed.




Lemma textAt_withItems (i : nat) (l : list Item) (w : World) (it : Item) :
  nth_error l i = Some it -> textAt i (withItems l w) = messageText it.
Proof. intros H. unfold textAt. cbn. now rewrite H. Qed.

Lemma pageWithContent_withItems (i : nat) (kids : list Html.node)
      (l : list Item) (w : World) :
  pageWithContent i kids (withItems l w)
  = withItems (replaceContent i kids l) w.
Proof. reflexivity. Qed.





Lemma flattenedItem_same (x y : Item) :
  messageId x = messageId y -> messageText x = messageText y ->
  Js.truthy (messageText y) = true ->
  flattenedItem x = flattenedItem y.
Proof.
  intros Hi Ht Hy. unfold flattenedItem. now rewrite Ht, Hi, Hy.
Qed.


























(** ** What the highlighter leaves alone, and how it fails *)

Lemma sameButContents_refl (w : World) : sameButContents w w.
Proof. repeat split. Qed.

Lemma sameButContents_trans (a b c : World) :
  sameButContents a b -> sameButContents b c -> sameButContents a c.
Proof.
  unfold sameButContents. intros H1 H2.
  repeat match goal with H : _ /\ _ |- _ => destruct H end.
  repeat split; congruence.
Qed.

Lemma contents_ret {A : Type} (a : A) : editsContentsOnly (ret a).
Proof. intros w. apply sameButContents_refl. Qed.

Lemma contents_bind {A B : Type} (m : M A) (k : A -> M B) :
  editsContentsOnly m -> (forall a, editsContentsOnly (k a)) ->
  editsContentsOnly (bind m k).
Proof.
  intros Hm Hk w. unfold bind. specialize (Hm w).
  destruct (m w) as [a v|e v|]; [|exact Hm|exact I].
  specialize (Hk a v).
  destruct (k a v) as [b u|e u|]; [| |exact I];
    eapply sameButContents_trans; eassumption.
Qed.

Lemma contents_forEach {A : Type} (l : list A) (f : A -> M unit) :
  (forall x, editsContentsOnly (f x)) -> editsContentsOnly (forEach l f).
Proof.
  intros Hf. induction l as [|x l IH]; [apply contents_ret|].
  simpl. apply contents_bind; [apply Hf|intros _; exact IH].
Qed.

Lemma contents_gets {A : Type} (f : World -> A) : editsContentsOnly (gets f).
Proof. intros w. apply sameButContents_refl. Qed.

Lemma contents_querySelector (s : string) :
  editsContentsOnly (querySelector s).
Proof.
  intros w. unfold querySelector.
  destruct (Css.parse s); try exact I; apply sameButContents_refl.
Qed.

Lemma map_messageId_replaceContent (i : nat) (kids : list Html.node)
      (l : list Item) :
  map messageId (replaceContent i kids l) = map messageId l.
Proof.
  revert i. induction l as [|x l IH]; intros [|i]; cbn; try reflexivity.
  now rewrite IH.
Qed.

Lemma contents_setInnerHTML (i : nat) (s : string) :
  editsContentsOnly (setInnerHTML i s).
Proof.
  intros w. unfold setInnerHTML. destruct (Html.parseFragment s); [|exact I].
  cbn. unfold sameButContents. cbn.
  rewrite map_messageId_replaceContent. repeat split.
Qed.

Lemma contents_newRegExp (s : string) : editsContentsOnly (newRegExp s).
Proof.
  intros w. unfold newRegExp.
  destruct (Js.newRegExp s); try exact I; apply sameButContents_refl.
Qed.

Lemma contents_highlightMessage (p : InfiniteScrollProps) (id : string) :
  editsContentsOnly (highlightMessage p id).
Proof.
  unfold highlightMessage. apply contents_bind; [apply contents_querySelector|].
  intros [i|]; [|apply contents_ret].
  apply contents_bind; [apply contents_gets|]. intros t.
  destruct (Js.truthy t); [|apply contents_ret].
  destruct (Js.includes _ _); [|apply contents_ret].
  apply contents_bind; [apply contents_newRegExp|]. intros re.
  apply contents_setInnerHTML.
Qed.

Lemma contents_restoreMessage (id : string) :
  editsContentsOnly (restoreMessage id).
Proof.
  unfold restoreMessage. apply contents_bind; [apply contents_querySelector|].
  intros [i|]; [|apply contents_ret].
  apply contents_bind; [apply contents_gets|]. intros t.
  destruct (Js.truthy t); [apply contents_setInnerHTML|apply contents_ret].
Qed.

Lemma contents_highlightEffect (p : InfiniteScrollProps) :
  editsContentsOnly (highlightEffect p).
Proof.
  unfold highlightEffect. apply contents_bind; [apply contents_gets|].
  intros m. destruct (_ || _); [apply contents_ret|].
  apply contents_bind; [|intros _; apply contents_ret].
  apply contents_forEach. intros id. apply contents_highlightMessage.
Qed.

Lemma highlightEffect_cleanup (p : InfiniteScrollProps) (w w' : World)
      (undo : M unit) :
  highlightEffect p w = Ok (Some undo) w' ->
  undo = highlightCleanup (searchedMessageIds p).
Proof.
  unfold highlightEffect, bind, gets. destruct (_ || _); [discriminate|].
  destruct (forEach _ _ w); try discriminate.
  unfold ret. now intros [= <- _].
Qed.

Lemma contents_highlightThenCleanup (p : InfiniteScrollProps) :
  editsContentsOnly (highlightThenCleanup p).
Proof.
  intros w. unfold highlightThenCleanup, bind.
  pose proof (contents_highlightEffect p w) as He.
  destruct (highlightEffect p w) as [[undo|] v|e v|] eqn:Heff;
    [|exact He|exact He|exact I].
  rewrite (highlightEffect_cleanup _ _ _ _ Heff).
  pose proof (contents_forEach (searchedMessageIds p) restoreMessage
                               contents_restoreMessage v) as Hc.
  fold (highlightCleanup (searchedMessageIds p)) in Hc.
  destruct (highlightCleanup (searchedMessageIds p) v); [| |exact I];
    eapply sameButContents_trans; eassumption.
Qed.

(** X10.  Whenever the highlighter effect, its cleanup or the two in
    sequence end normally or throw, with selectors, pattern and markup
    inside the modelled fragment, they have written nothing but contents of
    messages: the ids and the order of the messages, the mounting, the
    snapshot, the timeouts and the calls are as they were, also when the run
    stopped half way at an exception. *)
Theorem highlighter_edits_contents_only :
  forall (p : InfiniteScrollProps) (ids : list string),
    editsContentsOnly (highlightEffect p)
    /\ editsContentsOnly (highlightCleanup ids)
    /\ editsContentsOnly (highlightThenCleanup p).
Proof.
  intros p ids. split; [apply contents_highlightEffect|].
  split; [|apply contents_highlightThenCleanup].
  apply contents_forEach. intros id. apply contents_restoreMessage.
Qed.






Lemma forEach_throw_in_the_middle {A : Type} (f : A -> M unit)
      (l1 l2 : list A) (x : A) (w w1 w2 : World) (e : Exn) :
  forEach l1 f w = Ok tt w1 ->
  f x w1 = Thrown e w2 ->
  forEach (l1 ++ x :: l2) f w = Thrown e w2.
Proof.
  revert w. induction l1 as [|y l1 IH]; intros w H1 Hx.
  - cbn in H1. injection H1 as <-. cbn. unfold bind. now rewrite Hx.
  - cbn in *. unfold bind in *. destruct (f y w) as [[] v|e' v|];
      try discriminate. now apply IH.
Qed.

(** X15.  A malformed id stops the effect half way.  When the ids before it
    have been handled and the selector of the next id is malformed, the
    effect throws a SyntaxError with the page as those earlier ids left it:
    their highlights stay, the later ids are not visited, and no cleanup is
    returned. *)
Theorem highlightEffect_malformed_id_keeps_earlier_highlights :
  forall (p : InfiniteScrollProps) (w w1 : World)
         (before after : list string) (bad : string),
    searchedMessageIds p = before ++ bad :: after ->
    Js.truthy (searchQuery p) = true ->
    mounted w = true ->
    Css.parse (messageSelector bad) = Css.Malformed ->
    forEach before (highlightMessage p) w = Ok tt w1 ->
    highlightEffect p w = Thrown SyntaxError w1.
Proof.
  intros p w w1 before after bad Hids Hq Hm Hbad Hbefore.
  unfold highlightEffect, bind, gets. rewrite Hq, Hm, Hids.
  replace (Nat.eqb (List.length (before ++ bad :: after)) 0) with false
    by (now destruct before).
  cbn [negb orb].
  rewrite (forEach_throw_in_the_middle _ before after bad w w1 w1 SyntaxError);
    [reflexivity|exact Hbefore|].
  unfold highlightMessage, bind, querySelector. now rewrite Hbad.
Qed.

Lemma highlightEffect_malformed_id_witness :
  highlightEffect
    (sampleProps Up None "lo"
                 ["m1"%string; String Js.dquote EmptyString; "m2"%string])
    (samplePage 0 1000 0
       [mkItem "m1" [Html.Text "hello"]; mkItem "m2" [Html.Text "lower"]])
  = Thrown SyntaxError
      (samplePage 0 1000 0
         [mkItem "m1"
            [Html.Text "hel";
             Html.span "bg-border-surface-accent-red-orange text-text-white"
                       [Html.Text "lo"]];
          mkItem "m2" [Html.Text "lower"]]).
Proof.
  apply (highlightEffect_malformed_id_keeps_earlier_highlights
           (sampleProps Up None "lo"
              ["m1"%string; String Js.dquote EmptyString; "m2"%string])
           (samplePage 0 1000 0
              [mkItem "m1" [Html.Text "hello"];
               mkItem "m2" [Html.Text "lower"]])
           _ ["m1"%string] ["m2"%string] (String Js.dquote EmptyString));
    reflexivity.
Defined.

(** ** The query up to case, and the markers *)

Lemma length_toLowerCase (s : string) :
  String.length (Js.toLowerCase s) = String.length s.
Proof. induction s; simpl; congruence. Qed.

Lemma occurrencesFrom_lower (q q' : string) :
  Js.toLowerCase q' = Js.toLowerCase q ->
  forall rest k seg,
    occurrencesFrom q' k seg rest = occurrencesFrom q k seg rest.
Proof.
  intros Hlow.
  assert (Hlen : String.length q' = String.length q).
  { now rewrite <- (length_toLowerCase q'), Hlow, length_toLowerCase. }
  induction rest as [|c rest IH]; intros k seg; [reflexivity|].
  destruct k as [|k]; cbn [occurrencesFrom]; [|apply IH].
  unfold occursAt. rewrite Hlow, Hlen.
  destruct (Js.startsWith _ _); now rewrite IH.
Qed.

Lemma truthy_lower (q q' : string) :
  Js.toLowerCase q' = Js.toLowerCase q -> Js.truthy q' = Js.truthy q.
Proof. destruct q, q'; try reflexivity; discriminate. Qed.

(** X16.  For literal ASCII queries and ASCII message texts only the
    letters of the query matter, not their case: two queries with the same
    lower-case form give the same result on every id. *)
Theorem highlight_ignores_case_of_query :
  forall (p : InfiniteScrollProps) (q' id : string) (w : World),
    literalQuery (searchQuery p) = true ->
    literalQuery q' = true ->
    Js.isAscii (searchQuery p) = true ->
    Js.isAscii q' = true ->
    asciiTexts (items (element w)) ->
    Js.toLowerCase q' = Js.toLowerCase (searchQuery p) ->
    highlightMessage (withQuery q' p) id w = highlightMessage p id w.
Proof.
  intros p q' id w Hlit Hlit' Hqa Hqa' Hta Hlow.
  destruct (Js.truthy (searchQuery p)) eqn:Hq.
  2:{ assert (E : q' = searchQuery p).
      { destruct (searchQuery p); [|discriminate]. now destruct q'. }
      unfold highlightMessage, highlightPart.
      cbn [searchQuery searchedMessageColor withQuery]. now rewrite E. }
  unfold highlightMessage, bind.
  destruct (querySelector (messageSelector id) w) as [[i|] v|e v|];
    try reflexivity.
  destruct (textContentAt i v) as [t u|e u|]; try reflexivity.
  destruct (Js.truthy t) eqn:Ht; [|reflexivity].
  cbn [searchQuery withQuery]. rewrite Hlow.
  destruct (Js.includes _ _) eqn:Hinc; [|reflexivity].
  assert (Hq' : Js.truthy q' = true).
  { now rewrite (truthy_lower _ _ Hlow). }
  unfold newRegExp. rewrite !newRegExp_literal by assumption.
  unfold ret. rewrite !split_literal by assumption.
  unfold occurrences. rewrite (occurrencesFrom_lower _ _ Hlow).
  f_equal. f_equal. apply map_ext. intros part.
  unfold highlightPart. cbn [searchQuery searchedMessageColor withQuery].
  now rewrite Hlow.
Qed.

Lemma highlight_ignores_case_of_query_witness :
  highlightMessage (withQuery "WORLD" (sampleProps Up None "world" ["m1"%string]))
                   "m1"
                   (samplePage 0 1000 0 [mkItem "m1" [Html.Text "Hello World"]])
  = highlightMessage (sampleProps Up None "world" ["m1"%string]) "m1"
                     (samplePage 0 1000 0
                        [mkItem "m1" [Html.Text "Hello World"]]).
Proof.
  apply (highlight_ignores_case_of_query
           (sampleProps Up None "world" ["m1"%string]) "WORLD" "m1"
           (samplePage 0 1000 0 [mkItem "m1" [Html.Text "Hello World"]]));
    try reflexivity; repeat constructor.
Defined.







(** ** Queries with dots *)
















(** ** From the rendered sentinels to the load callbacks *)

Lemma visibilityEffect_accepted (t : ObserverTuning) (tree : VNode) :
  acceptedTuning t = true ->
  exists observer,
    visibilityEffect t tree = Built observer
    /\ root observer = refCurrent ScrollRef tree
    /\ targets observer
       = match refCurrent TopSentinelRef tree with
         | Some el => [el]
         | None => []
         end
         ++ match refCurrent BottomSentinelRef tree with
            | Some el => [el]
            | None => []
            end.
Proof.
  unfold acceptedTuning, visibilityEffect, newIntersectionObserver.
  intros H. apply andb_prop in H as [Hmargin Hthreshold].
  destruct (rootMargin t) as [m|].
  - destruct (parseRootMargin m); try discriminate.
    destruct (threshold t) as [v|].
    + rewrite Hthreshold. eexists. split; [reflexivity|].
      destruct (refCurrent TopSentinelRef tree),
               (refCurrent BottomSentinelRef tree); now split.
    + eexists. split; [reflexivity|].
      destruct (refCurrent TopSentinelRef tree),
               (refCurrent BottomSentinelRef tree); now split.
  - destruct (threshold t) as [v|].
    + replace (parseRootMargin "100px") with MarginOk by reflexivity.
      rewrite Hthreshold. eexists. split; [reflexivity|].
      destruct (refCurrent TopSentinelRef tree),
               (refCurrent BottomSentinelRef tree); now split.
    + eexists. split; [reflexivity|].
      destruct (refCurrent TopSentinelRef tree),
               (refCurrent BottomSentinelRef tree); now split.
Qed.

(** The refs of the two sentinels in the returned markup. *)
Lemma sentinels_of_render (cn : option string -> string -> string)
      (className : option string) (p : InfiniteScrollProps) :
  refCurrent TopSentinelRef (render cn className p)
  = (if isTopFetchMore p then Some topSentinel else None)
  /\ refCurrent BottomSentinelRef (render cn className p)
     = (if isBottomFetchMore p then Some bottomSentinel else None).
Proof.
  unfold render.
  destruct (isLoading p), (isTopFetchMore p), (isBottomFetchMore p);
    split; reflexivity.
Qed.

(** Outside the accepted options the constructor throws before anything is
    observed: a threshold above 1 or below 0 with a margin that parses is a
    RangeError, five margin values are a SyntaxError. *)
Lemma visibilityEffect_threshold_out_of_range (t : ObserverTuning)
      (tree : VNode) (v : QArith_base.Q) :
  threshold t = Some v ->
  thresholdInRange v = false ->
  match rootMargin t with
  | Some m => parseRootMargin m = MarginOk
  | None => True
  end ->
  visibilityEffect t tree = ConstructorThrows RangeError.
Proof.
  intros Hv Hout Hmargin.
  unfold visibilityEffect, newIntersectionObserver. rewrite Hv, Hout.
  destruct (rootMargin t) as [m|]; [now rewrite Hmargin|reflexivity].
Qed.

Example visibilityEffect_five_margins (tree : VNode) :
  visibilityEffect (mkTuning None (Some "1px 2px 3px 4px 5px"%string)) tree
  = ConstructorThrows SyntaxError.
Proof. reflexivity. Qed.

Lemma requestedBy_observed (p : InfiniteScrollProps) (report : VNode * bool) :
  In (fst report)
     ((if isTopFetchMore p then [topSentinel] else [])
      ++ (if isBottomFetchMore p then [bottomSentinel] else [])) ->
  requestedBy p (entryFor report)
  = if snd report then loadFor (fst report) else [].
Proof.
  destruct report as [el b]. cbn [fst snd].
  unfold requestedBy, entryFor. cbn [isIntersecting targetId fst snd].
  destruct b; [|reflexivity].
  destruct (isTopFetchMore p), (isBottomFetchMore p); cbn [app];
    intros Hin; repeat (destruct Hin as [<-|Hin]; [reflexivity|]);
    destruct Hin.
Qed.

(** X18.  The markup, the registration and the callback fit together.  For
    options the constructor accepts (a threshold from 0 to 1 and a margin of
    one to four pixel or percent values, or the defaults), the effect ends
    with an observer that watches the top sentinel exactly when
    isTopFetchMore is set and the bottom sentinel exactly when
    isBottomFetchMore is set, in that order.  With the flag down and the
    container mounted, a batch of reports on watched elements leads to one
    call per intersecting report, loadMoreTop for the element carrying
    topSentinelRef and loadMoreBottom for the one carrying
    bottomSentinelRef: the ids of the markup are the ids the callback
    compares with. *)
Theorem observed_sentinels_reach_their_callbacks :
  forall (cn : option string -> string -> string) (className : option string)
         (p : InfiniteScrollProps) (t : ObserverTuning) (w : World)
         (batch : list (VNode * bool)),
    acceptedTuning t = true ->
    isLoading p = false ->
    mounted w = true ->
    exists observer,
      visibilityEffect t (render cn className p) = Built observer
      /\ targets observer
         = (if isTopFetchMore p then [topSentinel] else [])
           ++ (if isBottomFetchMore p then [bottomSentinel] else [])
      /\ (Forall (fun report => In (fst report) (targets observer)) batch ->
          observerCallback p (map entryFor batch) w
          = Ok tt (withCalls
                     (calls w
                      ++ flat_map (fun report : VNode * bool =>
                                     if snd report then loadFor (fst report)
                                     else []) batch)
                     w)).
Proof.
  intros cn className p t w batch Ht Hl Hm.
  destruct (visibilityEffect_accepted t (render cn className p) Ht)
    as [observer [Hrun [_ Htargets]]].
  destruct (sentinels_of_render cn className p) as [Htop Hbottom].
  rewrite Htop, Hbottom in Htargets.
  assert (Hwatched :
            targets observer
            = (if isTopFetchMore p then [topSentinel] else [])
              ++ (if isBottomFetchMore p then [bottomSentinel] else [])).
  { rewrite Htargets.
    now destruct (isTopFetchMore p), (isBottomFetchMore p). }
  exists observer. split; [exact Hrun|]. split; [exact Hwatched|].
  rewrite Hwatched. intros Hbatch.
  rewrite observerCallback_trace, Hl, Hm. cbn [negb andb].
  f_equal. f_equal. f_equal.
  induction Hbatch as [|report batch Hin _ IH]; [reflexivity|].
  cbn [map flat_map]. rewrite IH. f_equal.
  now apply requestedBy_observed.
Qed.

Lemma observed_sentinels_reach_their_callbacks_witness :
  exists observer,
    visibilityEffect (mkTuning None (Some "0px 10%"%string))
      (render (fun _ base => base) None
              (mkProps false true false Up None EmptyString [] EmptyString))
    = Built observer
    /\ targets observer = [topSentinel]
    /\ observerCallback
         (mkProps false true false Up None EmptyString [] EmptyString)
         (map entryFor [(topSentinel, false); (topSentinel, true)])
         (samplePage 0 1000 0 [])
       = Ok tt (withCalls [LoadMoreTop] (samplePage 0 1000 0 [])).
Proof.
  destruct (observed_sentinels_reach_their_callbacks
              (fun _ base => base) None
              (mkProps false true false Up None EmptyString [] EmptyString)
              (mkTuning None (Some "0px 10%"%string))
              (samplePage 0 1000 0 [])
              [(topSentinel, false); (topSentinel, true)]
              eq_refl eq_refl eq_refl)
    as [observer [Hrun [Htargets Hcalls]]].
  exists observer. split; [exact Hrun|]. split; [exact Htargets|].
  apply Hcalls. rewrite Htargets. repeat constructor.
Defined.
